(** * Upload reconciliation of the Supabase connector

    A shallow embedding of [SupabaseConnector] (library/SupabaseConnector.ts,
    as listed in the tutorial text of the repository): the fatal response
    codes, [init], [login], [updateSession] and [uploadData].  The connector
    talks to three collaborators -- the local PowerSync database, the
    Supabase client and the listeners of [BaseObserver] -- so the embedding
    is a state-and-exception monad over the connector's fields and a log of
    every call made to a collaborator.  Within an invocation an [await]
    is a sequential call.  Invocations run one after the other, except
    those of [init], whose suspension at its [await] is modelled too. *)

From Stdlib Require Import ZArith NArith Ascii String.
From stdpp Require Import base option list strings gmap.

Local Open Scope string_scope.

(* ===================================================================== *)
(** ** Strings inspected by regular expressions *)
(* ===================================================================== *)

(** A JavaScript string is a sequence of UTF-16 code units.  Only the
    [code] of an error is ever inspected unit by unit (by [RegExp.test]),
    so codes are kept as sequences of code units; every other string of
    the program is only copied or concatenated and stays a [string]. *)
Abbreviation JsString := (list N).

(** The code units of a literal made of characters below U+0100. *)
Definition js (s : string) : JsString := N_of_ascii <$> list_ascii_of_string s.

(** ** The regular expressions of [FATAL_RESPONSE_CODES] *)

(** The syntax the three patterns of the source use: the assertions [^]
    and [$], the wildcard [.] and literal characters. *)
Inductive Atom :=
  | Bol               (* ^ *)
  | Eol               (* $ *)
  | Dot               (* . *)
  | Chr (c : N).      (* a literal character *)

Abbreviation RegExp := (list Atom).

Definition atom_of_ascii (a : ascii) : Atom :=
  if Ascii.eqb a "^" then Bol
  else if Ascii.eqb a "$" then Eol
  else if Ascii.eqb a "." then Dot
  else Chr (N_of_ascii a).

(** [new RegExp(source)], for sources written in the syntax above. *)
Definition new_RegExp (source : string) : RegExp :=
  atom_of_ascii <$> list_ascii_of_string source.

(** Without the [s] flag [.] matches every code unit but the four line
    terminators: LF, CR, U+2028 and U+2029. *)
Definition is_line_terminator (c : N) : bool :=
  (N.eqb c 10 || N.eqb c 13 || N.eqb c 8232 || N.eqb c 8233)%N.

(** Does the pattern match a prefix of [s]?  [at_start] tells whether [s]
    is the whole input; without the [m] flag [^] holds only there and [$]
    only where nothing is left. *)
Fixpoint match_here (re : RegExp) (at_start : bool) (s : JsString) : bool :=
  match re with
  | [] => true
  | Bol :: re' => at_start && match_here re' at_start s
  | Eol :: re' =>
      match s with
      | [] => match_here re' at_start s
      | _ :: _ => false
      end
  | Dot :: re' =>
      match s with
      | c :: s' => negb (is_line_terminator c) && match_here re' false s'
      | [] => false
      end
  | Chr a :: re' =>
      match s with
      | c :: s' => N.eqb c a && match_here re' false s'
      | [] => false
      end
  end.

(** A match may start at any index of the input. *)
Fixpoint search (re : RegExp) (at_start : bool) (s : JsString) : bool :=
  match_here re at_start s
  || match s with
     | [] => false
     | _ :: s' => search re false s'
     end.

(** [regex.test(s)] for a regular expression without flags. *)
Definition test (regex : RegExp) (s : JsString) : bool := search regex true s.

(** Postgres Response codes that we cannot recover from by retrying. *)
Definition FATAL_RESPONSE_CODES : list RegExp :=
  [ (* Class 22 - Data Exception *)
    new_RegExp "^22...$";
    (* Class 23 - Integrity Constraint Violation *)
    new_RegExp "^23...$";
    (* INSUFFICIENT PRIVILEGE *)
    new_RegExp "^42501$" ].

(** [FATAL_RESPONSE_CODES.some((regex) => regex.test(code))]: the patterns
    are tried in the order of the list up to the first one that matches. *)
Definition fatal_code (code : JsString) : bool :=
  existsb (fun regex => test regex code) FATAL_RESPONSE_CODES.

(** The two classes of the specification, read off the condition above. *)
Inductive Classification := Permanent | Transient.

Definition classification (code : JsString) : Classification :=
  if fatal_code code then Permanent else Transient.

(* ===================================================================== *)
(** ** Data of the connector and of its collaborators *)
(* ===================================================================== *)

(** Column values of a row. *)
Inductive JsVal :=
  | VNull
  | VBool (b : bool)
  | VNum (z : Z)
  | VStr (s : string).

(** A plain object used as a map from column names to values. *)
Abbreviation Obj := (gmap string JsVal).

(** [UpdateType] of the SDK.  [OTHER] stands for a run-time value that is
    none of the three members, which the [switch] of [uploadData] has no
    case for. *)
Inductive UpdateType :=
  | PUT
  | PATCH
  | DELETE
  | OTHER (tag : string).

(** [CrudEntry]: the fields [table], [op], [id] and [opData] that
    [uploadData] reads ([opData] may be undefined). *)
Record CrudEntry := {
  ce_table : string;
  ce_op : UpdateType;
  ce_id : string;
  ce_opData : option Obj
}.

(** [CrudTransaction]: the ordered entries of one local transaction. *)
Record CrudTransaction := {
  crud : list CrudEntry;
  transactionId : option Z
}.

(** The local database, as far as [uploadData] uses it: the answer of
    [getNextCrudTransaction()]. *)
Record AbstractPowerSyncDatabase := {
  nextCrudTransaction : option CrudTransaction
}.

(** The request a query builder of the Supabase client stands for. *)
Inductive Method := Upsert | Update | Delete.

Record Request := {
  req_table : string;
  req_method : Method;
  req_body : option Obj;
  req_filters : list (string * JsVal)
}.

(** [client.from(table)], [.upsert(values)], [.update(values)],
    [.delete()] and the filter [.eq(column, value)]. *)
Definition from (table : string) : string := table.

Definition qb_upsert (table : string) (values : Obj) : Request :=
  {| req_table := table; req_method := Upsert;
     req_body := Some values; req_filters := [] |}.

Definition qb_update (table : string) (values : option Obj) : Request :=
  {| req_table := table; req_method := Update;
     req_body := values; req_filters := [] |}.

Definition qb_delete (table : string) : Request :=
  {| req_table := table; req_method := Delete;
     req_body := None; req_filters := [] |}.

Definition qb_eq (column : string) (value : JsVal) (q : Request) : Request :=
  {| req_table := req_table q; req_method := req_method q;
     req_body := req_body q;
     req_filters := (req_filters q ++ [(column, value)])%list |}.

(** The [error] object of a response: a code and a message. *)
Record Fault := {
  fault_code : JsString;
  fault_message : string
}.

(** The awaited value of a query: [error] is null on success. *)
Record PostgrestResponse := {
  error : option Fault
}.

(** The property [code] of a thrown value: missing, a string, or a value
    of another type. *)
Inductive CodeField :=
  | CodeUndefined
  | CodeString (c : JsString)
  | CodeOther.

(** The values that can be thrown in the connector. *)
Inductive Thrown :=
  | NewError (message : string)                  (* new Error(message) *)
  | TypeError (property : string)                (* property read on undefined or null *)
  | Rejection (message : string) (code : CodeField) (* object thrown by a collaborator *)
  | Nullish.                                     (* null or undefined thrown by a collaborator *)

(** How an awaited promise settles. *)
Inductive Settled (A : Type) :=
  | Fulfilled (a : A)
  | Rejected (ex : Thrown).
Arguments Fulfilled {A} a.
Arguments Rejected {A} ex.

Record Session := {
  access_token : string;
  expires_at : option Z
}.

Record AuthError := {
  auth_message : string;
  auth_code : CodeField
}.

(** [{ data: { session }, error }] of the auth calls. *)
Record AuthResponse := {
  data_session : option Session;
  auth_error : option AuthError
}.

(** The Supabase client.  Each call is answered by index: the n-th
    request that reaches the backend gets [postgrest n], so the record
    stands for an arbitrary sequence of responses, each of which may
    depend on the request. *)
Record SupabaseClient := {
  postgrest : nat -> Request -> Settled PostgrestResponse;
  auth_getSession : nat -> Settled AuthResponse;
  auth_signInWithPassword : nat -> string -> string -> Settled AuthResponse
}.

(** A listener of the connector: a handle and which of the two optional
    callbacks it defines. *)
Record Listener := {
  handle : nat;
  initialized : bool;
  sessionStarted : bool
}.

(** Every call made to a collaborator, in the order it happens. *)
Inductive Event :=
  | GetNextCrudTransaction
  | Sent (q : Request)
  | Complete (t : CrudTransaction)
  | ConsoleErrorFault (f : Fault)
  | ConsoleDebug (ex : Thrown)
  | ConsoleErrorDiscard (lastOp : option CrudEntry) (ex : Thrown)
  | GetSession
  | SignInWithPassword (email password : string)
  | NotifyInitialized (h : nat)
  | NotifySessionStarted (h : nat) (session : Session).

(** The fields of the connector ([ready], [currentSession], the listeners
    of [BaseObserver]), the local variable [lastOp] of [uploadData], which
    the catch block reads after the loop was left, and the log. *)
Record State := {
  ready : bool;
  currentSession : option Session;
  listeners : list Listener;
  lastOp : option CrudEntry;
  log : list Event
}.

Definition set_ready (b : bool) (s : State) : State :=
  {| ready := b; currentSession := currentSession s;
     listeners := listeners s; lastOp := lastOp s; log := log s |}.

Definition set_currentSession (v : option Session) (s : State) : State :=
  {| ready := ready s; currentSession := v;
     listeners := listeners s; lastOp := lastOp s; log := log s |}.

Definition set_listeners (ls : list Listener) (s : State) : State :=
  {| ready := ready s; currentSession := currentSession s;
     listeners := ls; lastOp := lastOp s; log := log s |}.

Definition set_lastOp (v : option CrudEntry) (s : State) : State :=
  {| ready := ready s; currentSession := currentSession s;
     listeners := listeners s; lastOp := v; log := log s |}.

Definition add_events (evs : list Event) (s : State) : State :=
  {| ready := ready s; currentSession := currentSession s;
     listeners := listeners s; lastOp := lastOp s;
     log := (log s ++ evs)%list |}.

(** Projections of a log. *)
Definition requests (evs : list Event) : list Request :=
  omap (fun e => match e with Sent q => Some q | _ => None end) evs.

Definition completions (evs : list Event) : list CrudTransaction :=
  omap (fun e => match e with Complete t => Some t | _ => None end) evs.

Definition session_fetches (evs : list Event) : list unit :=
  omap (fun e => match e with GetSession => Some tt | _ => None end) evs.

Definition sign_ins (evs : list Event) : list (string * string) :=
  omap (fun e => match e with
                 | SignInWithPassword u p => Some (u, p)
                 | _ => None
                 end) evs.

Definition initialized_notifications (evs : list Event) : list nat :=
  omap (fun e => match e with NotifyInitialized h => Some h | _ => None end) evs.

(* ===================================================================== *)
(** ** The monad of the connector's methods *)
(* ===================================================================== *)

(** A method either returns or throws. *)
Inductive Completion (A : Type) :=
  | Normal (a : A)
  | Throw (ex : Thrown).
Arguments Normal {A} a.
Arguments Throw {A} ex.

Definition M (A : Type) : Type := State -> Completion A * State.

Definition ret {A} (a : A) : M A := fun s => (Normal a, s).

Definition throw {A} (ex : Thrown) : M A := fun s => (Throw ex, s).

Definition bind {A B} (m : M A) (k : A -> M B) : M B :=
  fun s =>
    match m s with
    | (Normal a, s') => k a s'
    | (Throw ex, s') => (Throw ex, s')
    end.

(** [try { body } catch (ex) { handler }] *)
Definition try_catch {A} (body : M A) (handler : Thrown -> M A) : M A :=
  fun s =>
    match body s with
    | (Normal a, s') => (Normal a, s')
    | (Throw ex, s') => handler ex s'
    end.

Declare Scope js_scope.
Delimit Scope js_scope with js.
Notation "x <- m ;; k" := (bind m (fun x => k))
  (at level 100, m at next level, right associativity) : js_scope.
Notation "m ;; k" := (bind m (fun _ => k))
  (at level 100, right associativity) : js_scope.
Local Open Scope js_scope.

Definition get {A} (f : State -> A) : M A := fun s => (Normal (f s), s).

Definition modify (f : State -> State) : M unit := fun s => (Normal tt, f s).

Definition emit (e : Event) : M unit := modify (add_events [e]).

(** [await promise] *)
Definition await {A} (p : Settled A) : M A :=
  match p with
  | Fulfilled a => ret a
  | Rejected ex => throw ex
  end.

(** [for (const x of xs) { body }] *)
Fixpoint for_of {A} (xs : list A) (body : A -> M unit) : M unit :=
  match xs with
  | [] => ret tt
  | x :: xs' => body x ;; for_of xs' body
  end.

(** *** Calls to the collaborators *)

(** [await database.getNextCrudTransaction()] *)
Definition getNextCrudTransaction (database : AbstractPowerSyncDatabase)
  : M (option CrudTransaction) :=
  emit GetNextCrudTransaction ;;
  ret (nextCrudTransaction database).

(** [await transaction.complete()]: the completion marker of the whole
    transaction is written to the local database. *)
Definition complete (transaction : CrudTransaction) : M unit :=
  emit (Complete transaction).

(** Awaiting a query builder sends its request; the answer is the one the
    client has for the requests sent so far. *)
Definition await_query (client : SupabaseClient) (q : Request) : M PostgrestResponse :=
  n <- get (fun s => length (requests (log s))) ;;
  emit (Sent q) ;;
  await (postgrest client n q).

(** [await client.auth.getSession()] *)
Definition getSession (client : SupabaseClient) : M AuthResponse :=
  n <- get (fun s => length (session_fetches (log s))) ;;
  emit GetSession ;;
  await (auth_getSession client n).

(** [await client.auth.signInWithPassword({ email, password })] *)
Definition signInWithPassword (client : SupabaseClient) (email password : string)
  : M AuthResponse :=
  n <- get (fun s => length (sign_ins (log s))) ;;
  emit (SignInWithPassword email password) ;;
  await (auth_signInWithPassword client n email password).

(** [ex.code]: reading a property of null or undefined is a TypeError. *)
Definition get_code (ex : Thrown) : M CodeField :=
  match ex with
  | NewError _ => ret CodeUndefined
  | TypeError _ => ret CodeUndefined
  | Rejection _ c => ret c
  | Nullish => throw (TypeError "code")
  end.

(** [result.error], where [result] is undefined when no case of the
    [switch] assigned it. *)
Definition get_error (result : option PostgrestResponse) : M (option Fault) :=
  match result with
  | Some r => ret (error r)
  | None => throw (TypeError "error")
  end.

(** [{ ...opData }]: spreading undefined gives no property. *)
Definition spread (opData : option Obj) : Obj := default ∅ opData.

(** *** [BaseObserver] *)

(** [BaseObserver] belongs to the SDK.  Its registry is kept as the
    specification describes it: a set of callback handles invoked in
    registration order. *)
Definition registerListener (l : Listener) : M unit :=
  modify (fun s =>
    if bool_decide (handle l ∈ handle <$> listeners s) then s
    else set_listeners (listeners s ++ [l])%list s).

Definition iterateListeners (cb : Listener -> M unit) : M unit :=
  ls <- get listeners ;;
  for_of ls cb.

(* ===================================================================== *)
(** ** [SupabaseConnector] *)
(* ===================================================================== *)

(** The state the constructor leaves. *)
Definition constructor : State :=
  {| ready := false; currentSession := None; listeners := [];
     lastOp := None; log := [] |}.

Definition updateSession (session : option Session) : M unit :=
  modify (set_currentSession session) ;;
  match session with
  | None => ret tt
  | Some session =>
      iterateListeners (fun cb =>
        if sessionStarted cb then emit (NotifySessionStarted (handle cb) session)
        else ret tt)
  end.

Definition init (this : SupabaseClient) : M unit :=
  r <- get ready ;;
  if r then ret tt
  else
    sessionResponse <- getSession this ;;
    updateSession (data_session sessionResponse) ;;
    modify (set_ready true) ;;
    iterateListeners (fun cb =>
      if initialized cb then emit (NotifyInitialized (handle cb))
      else ret tt).

Definition login (this : SupabaseClient) (username password : string) : M unit :=
  r <- signInWithPassword this username password ;;
  match auth_error r with
  | Some e => throw (Rejection (auth_message e) (auth_code e))
  | None => updateSession (data_session r)
  end.

(** The body of the loop of [uploadData]. *)
Definition upload_op (this : SupabaseClient) (op : CrudEntry) : M unit :=
  modify (set_lastOp (Some op)) ;;
  let table := from (ce_table op) in
  result <-
    match ce_op op with
    | PUT =>
        let record := <["id" := VStr (ce_id op)]> (spread (ce_opData op)) in
        r <- await_query this (qb_upsert table record) ;;
        ret (Some r)
    | PATCH =>
        r <- await_query this (qb_eq "id" (VStr (ce_id op)) (qb_update table (ce_opData op))) ;;
        ret (Some r)
    | DELETE =>
        r <- await_query this (qb_eq "id" (VStr (ce_id op)) (qb_delete table)) ;;
        ret (Some r)
    | OTHER _ => ret None
    end ;;
  e <- get_error result ;;
  match e with
  | Some e =>
      emit (ConsoleErrorFault e) ;;
      throw (NewError ("Could not update Supabase. Received error: " ++ fault_message e))
  | None => ret tt
  end.

(** The catch block of [uploadData]. *)
Definition upload_catch (transaction : CrudTransaction) (ex : Thrown) : M unit :=
  emit (ConsoleDebug ex) ;;
  code <- get_code ex ;;
  if match code with
     | CodeString c => fatal_code c      (* typeof ex.code == "string" && ... *)
     | _ => false
     end
  then
    (* discard the (rest of the) transaction *)
    l <- get lastOp ;;
    emit (ConsoleErrorDiscard l ex) ;;
    complete transaction
  else
    (* the error may be retryable *)
    throw ex.

Definition uploadData (this : SupabaseClient) (database : AbstractPowerSyncDatabase)
  : M unit :=
  transaction <- getNextCrudTransaction database ;;
  match transaction with
  | None => ret tt
  | Some transaction =>
      modify (set_lastOp None) ;;
      try_catch
        (for_of (crud transaction) (upload_op this) ;;
         complete transaction)
        (upload_catch transaction)
  end.

(* ===================================================================== *)
(** ** Vocabulary of the statements *)
(* ===================================================================== *)

(** The request the [switch] of [uploadData] builds for an entry; none
    for an entry whose kind has no case. *)
Definition request_of (op : CrudEntry) : option Request :=
  match ce_op op with
  | PUT =>
      Some (qb_upsert (from (ce_table op))
                      (<["id" := VStr (ce_id op)]> (spread (ce_opData op))))
  | PATCH =>
      Some (qb_eq "id" (VStr (ce_id op)) (qb_update (from (ce_table op)) (ce_opData op)))
  | DELETE =>
      Some (qb_eq "id" (VStr (ce_id op)) (qb_delete (from (ce_table op))))
  | OTHER _ => None
  end.

Definition ok_response : PostgrestResponse := {| error := None |}.

Definition fault_response (f : Fault) : PostgrestResponse := {| error := Some f |}.

(** Entry [i] of the batch, sent as the [i]-th request of an invocation
    that starts in [s], is answered by [r]. *)
Definition receives (this : SupabaseClient) (s : State) (ops : list CrudEntry)
    (i : nat) (r : Settled PostgrestResponse) : Prop :=
  ∃ op q, ops !! i = Some op ∧ request_of op = Some q ∧
          postgrest this (length (requests (log s)) + i) q = r.

(** [s'] is [s] after the calls [evs], with the connector's fields as
    they were. *)
Definition extends (s s' : State) (evs : list Event) : Prop :=
  log s' = (log s ++ evs)%list ∧ ready s' = ready s ∧
  currentSession s' = currentSession s ∧ listeners s' = listeners s.

(** The codes of one class: the two given digits and three more
    characters, none of them a line terminator. *)
Definition in_class (d1 d2 : N) (code : JsString) : Prop :=
  ∃ a b c, code = [d1; d2; a; b; c] ∧
    is_line_terminator a = false ∧ is_line_terminator b = false ∧
    is_line_terminator c = false.

(** Does the catch block of [uploadData] discard the transaction when it
    catches [ex]?  Only a thrown value with a string [code] that one of
    the patterns matches. *)
Definition discards (ex : Thrown) : bool :=
  match ex with
  | Rejection _ (CodeString c) => fatal_code c
  | _ => false
  end.

(** The message of the error [uploadData] throws for a fault. *)
Definition upload_error (f : Fault) : Thrown :=
  NewError ("Could not update Supabase. Received error: " ++ fault_message f).

(** The methods a user of the connector calls, one after the other: each
    call runs to its end before the next one starts.  What a call throws
    is caught by the caller. *)
Inductive Call :=
  | CallInit
  | CallLogin (username password : string)
  | CallUpdateSession (session : option Session)
  | CallRegisterListener (l : Listener)
  | CallUploadData (database : AbstractPowerSyncDatabase).

Definition call (this : SupabaseClient) (c : Call) : M unit :=
  match c with
  | CallInit => init this
  | CallLogin u p => login this u p
  | CallUpdateSession session => updateSession session
  | CallRegisterListener l => registerListener l
  | CallUploadData database => uploadData this database
  end.

Fixpoint calls (this : SupabaseClient) (cs : list Call) (s : State) : State :=
  match cs with
  | [] => s
  | c :: cs' => calls this cs' (snd (call this c s))
  end.

(** What holds of a connector however it was used: the registered
    handles are distinct, nobody was notified of the initialization while
    [ready] is still false, and nobody was notified of it twice. *)
Definition connector_inv (s : State) : Prop :=
  NoDup (handle <$> listeners s) ∧
  (ready s = false → initialized_notifications (log s) = []) ∧
  NoDup (initialized_notifications (log s)).

(** The events of one round of [iterateListeners]. *)
Definition notified (p : Listener → bool) (e : Listener → Event)
    (ls : list Listener) : list Event :=
  omap (fun cb => if p cb then Some (e cb) else None) ls.

(** *** Concrete inputs *)

Definition todo_put : CrudEntry :=
  {| ce_table := "todos"; ce_op := PUT; ce_id := "7f3a";
     ce_opData := Some {[ "description" := VStr "milk" ]} |}.

Definition todo_patch : CrudEntry :=
  {| ce_table := "todos"; ce_op := PATCH; ce_id := "7f3a";
     ce_opData := Some {[ "completed" := VNum 1 ]} |}.

Definition todo_delete : CrudEntry :=
  {| ce_table := "todos"; ce_op := DELETE; ce_id := "7f3a";
     ce_opData := None |}.

Definition todo_other : CrudEntry :=
  {| ce_table := "todos"; ce_op := OTHER "MERGE"; ce_id := "7f3a";
     ce_opData := None |}.

Definition batch3 : CrudTransaction :=
  {| crud := [todo_put; todo_patch; todo_delete]; transactionId := Some 1%Z |}.

Definition batch_other : CrudTransaction :=
  {| crud := [todo_put; todo_other; todo_delete]; transactionId := None |}.

Definition batch1 : CrudTransaction :=
  {| crud := [todo_put]; transactionId := Some 2%Z |}.

Definition pending (t : CrudTransaction) : AbstractPowerSyncDatabase :=
  {| nextCrudTransaction := Some t |}.

Definition no_session : Settled AuthResponse :=
  Fulfilled {| data_session := None; auth_error := None |}.

(** A client whose [k]-th request settles as [r] and whose other
    requests succeed. *)
Definition client_with (k : nat) (r : Settled PostgrestResponse) : SupabaseClient :=
  {| postgrest := fun n _ => if Nat.eqb n k then r else Fulfilled ok_response;
     auth_getSession := fun _ => no_session;
     auth_signInWithPassword := fun _ _ _ => no_session |}.

(** The listener of the to-do list view: it defines [initialized] only. *)
Definition view_listener : Listener :=
  {| handle := 1; initialized := true; sessionStarted := false |}.

(** A connector after the view registered its listener and the
    application called [init]. *)
Definition ready_connector : State :=
  calls (client_with 0 (Fulfilled ok_response))
        [CallRegisterListener view_listener; CallInit] constructor.

Definition unique_violation : Fault :=
  {| fault_code := js "23505";
     fault_message := "duplicate key value violates unique constraint" |}.

Definition insufficient_privilege : Fault :=
  {| fault_code := js "42501";
     fault_message := "new row violates row-level security policy" |}.

Definition connection_failure : Fault :=
  {| fault_code := js "08006"; fault_message := "connection failure" |}.

(* ===================================================================== *)
(** ** [fetchCredentials] *)
(* ===================================================================== *)

(** [SupabaseConfig], the [config] field of the connector. *)
Record SupabaseConfig := {
  supabaseUrl : string;
  supabaseAnonKey : string;
  powersyncUrl : string
}.

(** A [Date]: its time value in milliseconds, or an invalid date, whose
    time value is NaN. *)
Inductive JsDate :=
  | DateAt (ms : Z)
  | InvalidDate.

(** [new Date(value)] for an integer: a time value further than
    8.64e15 ms from the epoch is clipped to NaN.  Below that bound the
    product of an integer and 1000 is exact in a JavaScript number. *)
Definition new_Date (value : Z) : JsDate :=
  if Z.leb (Z.abs value) 8640000000000000 then DateAt value else InvalidDate.

(** What [fetchCredentials] returns; [expiresAt] is a [Date] or
    undefined. *)
Record Credentials := {
  endpoint : string;
  token : string;
  expiresAt : option JsDate
}.

(** [fetchCredentials].  [show] is the conversion of [error] to a string
    in the template of the message, which depends on the class of the
    error object.  The third component is what [console.debug] printed
    after "session expires at": the log of the connector has no entry for
    that line.  [access_token] is a string, so [?? ""] leaves it. *)
Definition fetchCredentials (this : SupabaseClient) (config : SupabaseConfig)
    (show : option AuthError → string) (s : State)
  : Completion Credentials * State * list (option Z) :=
  match getSession this s with
  | (Throw ex, s') => (Throw ex, s', [])
  | (Normal r, s') =>
      match data_session r, auth_error r with
      | Some session, None =>
          (Normal {| endpoint := powersyncUrl config;
                     token := access_token session;
                     expiresAt :=
                       match expires_at session with
                       | Some e =>
                           if Z.eqb e 0 then None else Some (new_Date (e * 1000))
                       | None => None
                       end |},
           s', [expires_at session])
      | _, _ =>
          (Throw (NewError ("Could not fetch Supabase credentials: "
                            ++ show (auth_error r))),
           s', [])
      end
  end.

(** The events [uploadData] can add to the log. *)
Definition is_upload_event (e : Event) : bool :=
  match e with
  | GetNextCrudTransaction | Sent _ | Complete _
  | ConsoleErrorFault _ | ConsoleDebug _ | ConsoleErrorDiscard _ _ => true
  | _ => false
  end.

(** What the catch block of [uploadData] throws again for [ex]. *)
Definition rethrown (ex : Thrown) : Thrown :=
  match ex with
  | Nullish => TypeError "code"
  | _ => ex
  end.

(** The notifications of [updateSession]: none for a null session,
    else one for each listener that defines [sessionStarted], in the
    order of registration. *)
Definition session_events (session : option Session) (ls : list Listener)
  : list Event :=
  match session with
  | Some session =>
      (fun cb => NotifySessionStarted (handle cb) session)
        <$> List.filter sessionStarted ls
  | None => []
  end.

(** The notifications at the end of [init]: one for each listener that
    defines [initialized], in the order of registration. *)
Definition initialized_events (ls : list Listener) : list Event :=
  (fun cb => NotifyInitialized (handle cb)) <$> List.filter initialized ls.

(* ===================================================================== *)
(** ** The to-do list view before the database is wired in *)
(* ===================================================================== *)

(** The script of TodoList.vue as the repository ships it: the list is a
    local array.  Texts are kept as code units because [trim] inspects
    them. *)
Record Todo := {
  todo_id : Z;
  todo_description : JsString;
  todo_completed : Z
}.

(** The two refs of the view. *)
Record TodoList := {
  newTodo : JsString;
  todos : list Todo
}.

(** White space and line terminators, which [String.prototype.trim]
    removes. *)
Definition is_white_space (c : N) : bool :=
  (N.eqb c 9 || N.eqb c 10 || N.eqb c 11 || N.eqb c 12 || N.eqb c 13
   || N.eqb c 32 || N.eqb c 160 || N.eqb c 5760
   || (N.leb 8192 c && N.leb c 8202)
   || N.eqb c 8232 || N.eqb c 8233 || N.eqb c 8239 || N.eqb c 8287
   || N.eqb c 12288 || N.eqb c 65279)%N.

Fixpoint trimStart (s : JsString) : JsString :=
  match s with
  | c :: s' => if is_white_space c then trimStart s' else s
  | [] => []
  end.

Definition trim (s : JsString) : JsString :=
  reverse (trimStart (reverse (trimStart s))).

Definition addTodo (v : TodoList) : TodoList :=
  match trim (newTodo v) with
  | [] => v
  | _ :: _ =>
      {| newTodo := [];
         todos := todos v ++
                  [ {| todo_id := Z.of_nat (length (todos v)) + 1;
                       todo_description := newTodo v;
                       todo_completed := 0 |} ] |}
  end.

(** [array[index]] for an integer index. *)
Definition at_index {A} (l : list A) (index : Z) : option A :=
  if Z.leb 0 index then l !! Z.to_nat index else None.

Definition toggled (t : Todo) : Todo :=
  {| todo_id := todo_id t; todo_description := todo_description t;
     todo_completed := if Z.eqb (todo_completed t) 1 then 0 else 1 |}.

(** [todos[index].completed = todos[index].completed === 1 ? 0 : 1]; an
    index outside the array reads [completed] off undefined. *)
Definition updateTodo (index : Z) (v : TodoList) : Completion unit * TodoList :=
  match at_index (todos v) index with
  | Some t =>
      (Normal tt,
       {| newTodo := newTodo v;
          todos := <[Z.to_nat index := toggled t]> (todos v) |})
  | None => (Throw (TypeError "completed"), v)
  end.

(** [array.splice(start, deleteCount)] without new items: a negative
    start counts from the end, and both numbers are clamped to the array. *)
Definition splice {A} (start deleteCount : Z) (l : list A) : list A :=
  let len := Z.of_nat (length l) in
  let actualStart :=
    if Z.ltb start 0 then Z.max (len + start) 0 else Z.min start len in
  let actualDeleteCount := Z.min (Z.max deleteCount 0) (len - actualStart) in
  take (Z.to_nat actualStart) l
  ++ drop (Z.to_nat actualStart + Z.to_nat actualDeleteCount) l.

Definition removeTodo (index : Z) (v : TodoList) : TodoList :=
  {| newTodo := newTodo v; todos := splice index 1 (todos v) |}.

(** What a user does with the view: type into the input (the [v-model]
    of [newTodo]), submit the form, tick a checkbox, press a remove
    button.  A rejected [updateTodo] is not handled by anybody. *)
Inductive Action :=
  | Type_ (text : JsString)
  | Submit
  | Tick (index : Z)
  | Remove (index : Z).

Definition act (a : Action) (v : TodoList) : TodoList :=
  match a with
  | Type_ text => {| newTodo := text; todos := todos v |}
  | Submit => addTodo v
  | Tick index => snd (updateTodo index v)
  | Remove index => removeTodo index v
  end.

Definition acts (l : list Action) (v : TodoList) : TodoList :=
  foldl (fun v a => act a v) v l.

(** A history in which nothing is removed. *)
Definition no_removal (l : list Action) : bool :=
  forallb (fun a => match a with Remove _ => false | _ => true end) l.

(** The view when it is mounted. *)
Definition mounted : TodoList := {| newTodo := []; todos := [] |}.

Definition blank (s : JsString) : bool := forallb is_white_space s.

(** *** More concrete inputs *)

Definition demo_config : SupabaseConfig :=
  {| supabaseUrl := "https://demo.supabase.co";
     supabaseAnonKey := "anon";
     powersyncUrl := "https://demo.journeyapps.com" |}.

Definition demo_session : Session :=
  {| access_token := "jwt"; expires_at := Some 1700000000%Z |}.

Definition show_error (e : option AuthError) : string :=
  match e with
  | Some e => "AuthError: " ++ auth_message e
  | None => "null"
  end.

(** A client that has a session, rejects the first fetch of it when
    [down] is set, and answers every request with success. *)
Definition client_signed_in (down : bool) : SupabaseClient :=
  {| postgrest := fun _ _ => Fulfilled ok_response;
     auth_getSession := fun n =>
       if down && Nat.eqb n 0 then Rejected (Rejection "network" CodeUndefined)
       else Fulfilled {| data_session := Some demo_session; auth_error := None |};
     auth_signInWithPassword := fun _ _ _ =>
       Fulfilled {| data_session := Some demo_session; auth_error := None |} |}.

Definition invalid_login : AuthError :=
  {| auth_message := "Invalid login credentials";
     auth_code := CodeString (js "invalid_credentials") |}.

Definition client_refusing_login : SupabaseClient :=
  {| postgrest := fun _ _ => Fulfilled ok_response;
     auth_getSession := fun _ => no_session;
     auth_signInWithPassword := fun _ _ _ =>
       Fulfilled {| data_session := None; auth_error := Some invalid_login |} |}.

Definition session_listener : Listener :=
  {| handle := 2; initialized := false; sessionStarted := true |}.

Definition two_todos : TodoList :=
  {| newTodo := js "eggs";
     todos := [ {| todo_id := 1; todo_description := js "milk"; todo_completed := 0 |};
                {| todo_id := 2; todo_description := js "bread"; todo_completed := 1 |} ] |}.

(* ===================================================================== *)
(** ** Invocations of [init] that overlap *)
(* ===================================================================== *)

(** [init] is suspended at its [await], between the test of [ready] and
    the assignment to it, so another invocation can start in between.
    The two halves of [init] follow; [init] itself is the first half
    followed at once by the second ([init_split] below). *)

(** [this.client.auth.getSession()] up to the promise it returns: the
    call is made, its answer is not awaited yet. *)
Definition getSession_call (client : SupabaseClient) : M (Settled AuthResponse) :=
  n <- get (fun s => length (session_fetches (log s))) ;;
  emit GetSession ;;
  ret (auth_getSession client n).

(** [init] up to its [await]: the promise the invocation is suspended
    on, or nothing when it has returned because [ready] was set. *)
Definition init_begin (this : SupabaseClient) : M (option (Settled AuthResponse)) :=
  r <- get ready ;;
  if r then ret None
  else
    p <- getSession_call this ;;
    ret (Some p).

(** [init] from its [await] on. *)
Definition init_resume (p : Settled AuthResponse) : M unit :=
  sessionResponse <- await p ;;
  updateSession (data_session sessionResponse) ;;
  modify (set_ready true) ;;
  iterateListeners (fun cb =>
    if initialized cb then emit (NotifyInitialized (handle cb))
    else ret tt).

(** What happens to a connector, step by step: a method runs from start
    to end, an invocation of [init] starts and runs up to its [await], or
    the suspended invocation number [i] goes on to its end. *)
Inductive Step :=
  | Invoke (c : Call)
  | InitBegin
  | InitResume (i : nat).

(** The connector and the invocations of [init] that are suspended. *)
Abbreviation Config := (State * list (Settled AuthResponse))%type.

Definition step (this : SupabaseClient) (st : Step) (cfg : Config) : Config :=
  match st with
  | Invoke c => (snd (call this c (fst cfg)), snd cfg)
  | InitBegin =>
      match init_begin this (fst cfg) with
      | (Normal (Some p), s') => (s', (snd cfg ++ [p])%list)
      | (_, s') => (s', snd cfg)
      end
  | InitResume i =>
      match snd cfg !! i with
      | Some p => (snd (init_resume p (fst cfg)), delete i (snd cfg))
      | None => cfg
      end
  end.

Fixpoint steps (this : SupabaseClient) (hist : list Step) (cfg : Config) : Config :=
  match hist with
  | [] => cfg
  | st :: hist' => steps this hist' (step this st cfg)
  end.

Definition starts_init (st : Step) : bool :=
  match st with
  | Invoke CallInit | InitBegin => true
  | _ => false
  end.

(** No invocation of [init] starts while another one is suspended. *)
Fixpoint init_never_overlaps (this : SupabaseClient) (hist : list Step)
    (cfg : Config) : bool :=
  match hist with
  | [] => true
  | st :: hist' =>
      (if starts_init st then bool_decide (snd cfg = []) else true)
      && init_never_overlaps this hist' (step this st cfg)
  end.

(** What holds of the steps of a connector when no two invocations of
    [init] overlap. *)
Definition config_inv (cfg : Config) : Prop :=
  connector_inv (fst cfg) ∧
  (snd cfg ≠ [] → ready (fst cfg) = false) ∧
  (length (snd cfg) ≤ 1)%nat.

(** The view registers its listener; [init] is called twice without
    waiting for the first call; both calls get their answer. *)
Definition overlapping_inits : list Step :=
  [Invoke (CallRegisterListener view_listener);
   InitBegin; InitBegin; InitResume 0; InitResume 0].

(* ===================================================================== *)
(** ** Regular expressions and fatal codes *)
(* ===================================================================== *)

Lemma search_bol_inside (re : RegExp) (s : JsString) :
  search (Bol :: re) false s = false.
Proof. induction s as [|c s IH]; cbn; [reflexivity | exact IH]. Qed.

(** A pattern that starts with [^] matches at the start or not at all. *)
Lemma test_anchored (re : RegExp) (s : JsString) :
  test (Bol :: re) s = match_here re true s.
Proof.
  unfold test. destruct s as [|c s]; cbn.
  - apply orb_false_r.
  - rewrite search_bol_inside. apply orb_false_r.
Qed.

Lemma test_class (d1 d2 : N) (code : JsString) :
  test [Bol; Chr d1; Chr d2; Dot; Dot; Dot; Eol] code = true ↔ in_class d1 d2 code.
Proof.
  rewrite test_anchored. split.
  - destruct code as [|x1 [|x2 [|a [|b [|c [|z code]]]]]]; cbn;
      rewrite ?andb_false_r; try discriminate.
    intros H. repeat (apply andb_prop in H as [? H]).
    repeat match goal with
           | E : N.eqb _ _ = true |- _ => apply N.eqb_eq in E; subst
           | E : negb _ = true |- _ => apply negb_true_iff in E
           end.
    exists a, b, c. auto.
  - intros (a & b & c & -> & Ha & Hb & Hc). cbn.
    rewrite !N.eqb_refl, Ha, Hb, Hc. reflexivity.
Qed.

Lemma test_42501 (code : JsString) :
  test (new_RegExp "^42501$") code = true ↔ code = js "42501".
Proof.
  change (new_RegExp "^42501$") with [Bol; Chr 52; Chr 50; Chr 53; Chr 48; Chr 49; Eol]%N.
  rewrite test_anchored. split.
  - destruct code as [|x1 [|x2 [|a [|b [|c [|z code]]]]]]; cbn;
      rewrite ?andb_false_r; try discriminate.
    intros H. repeat (apply andb_prop in H as [? H]).
    repeat match goal with
           | E : N.eqb _ _ = true |- _ => apply N.eqb_eq in E; subst
           end.
    reflexivity.
  - intros ->. reflexivity.
Qed.

(** What the three patterns accept. *)
Lemma fatal_code_spec (code : JsString) :
  fatal_code code = true ↔
  in_class 50 50 code ∨ in_class 50 51 code ∨ code = js "42501".
Proof.
  unfold fatal_code, FATAL_RESPONSE_CODES. cbn [existsb].
  rewrite orb_false_r, !orb_true_iff.
  change (new_RegExp "^22...$") with [Bol; Chr 50; Chr 50; Dot; Dot; Dot; Eol]%N.
  change (new_RegExp "^23...$") with [Bol; Chr 50; Chr 51; Dot; Dot; Dot; Eol]%N.
  rewrite !test_class, test_42501. tauto.
Qed.

(** [some] stops at the first pattern that matches; no match, not fatal. *)
Lemma fatal_code_first_match (code : JsString) :
  classification code =
  match find (fun regex => test regex code) FATAL_RESPONSE_CODES with
  | Some _ => Permanent
  | None => Transient
  end.
Proof.
  unfold classification, fatal_code.
  induction FATAL_RESPONSE_CODES as [|regex l IH]; cbn; [reflexivity|].
  destruct (test regex code); cbn; [reflexivity | exact IH].
Qed.

Lemma fatal_code_no_match (code : JsString) :
  (∀ regex, regex ∈ FATAL_RESPONSE_CODES → test regex code = false) →
  classification code = Transient.
Proof.
  intros H. unfold classification.
  destruct (fatal_code code) eqn:E; [|reflexivity].
  apply existsb_exists in E as (regex & Hin & Ht).
  apply list_elem_of_In in Hin. rewrite (H _ Hin) in Ht. discriminate.
Qed.

Example fatal_needs_five : fatal_code (js "230") = false.
Proof. reflexivity. Qed.

Example fatal_newline : fatal_code (js "23" ++ [10; 48; 48]%N)%list = false.
Proof. reflexivity. Qed.

Example transient_08006 : classification (js "08006") = Transient.
Proof. reflexivity. Qed.

(* ===================================================================== *)
(** ** Runs of the loop of [uploadData] *)
(* ===================================================================== *)

Lemma requests_app (l1 l2 : list Event) :
  requests (l1 ++ l2) = (requests l1 ++ requests l2)%list.
Proof. apply omap_app. Qed.

Lemma completions_app (l1 l2 : list Event) :
  completions (l1 ++ l2) = (completions l1 ++ completions l2)%list.
Proof. apply omap_app. Qed.

Lemma initialized_notifications_app (l1 l2 : list Event) :
  initialized_notifications (l1 ++ l2) =
  (initialized_notifications l1 ++ initialized_notifications l2)%list.
Proof. apply omap_app. Qed.

Lemma requests_Sent (qs : list Request) : requests (Sent <$> qs) = qs.
Proof. induction qs as [|q qs IH]; cbn; [reflexivity | f_equal; exact IH]. Qed.

Lemma completions_Sent (qs : list Request) : completions (Sent <$> qs) = [].
Proof. induction qs as [|q qs IH]; cbn; [reflexivity | exact IH]. Qed.

Lemma extends_refl (s : State) : extends s s [].
Proof. unfold extends. rewrite app_nil_r. auto. Qed.

Lemma extends_trans (s1 s2 s3 : State) (e1 e2 : list Event) :
  extends s1 s2 e1 → extends s2 s3 e2 → extends s1 s3 (e1 ++ e2).
Proof.
  intros (L1 & R1 & C1 & I1) (L2 & R2 & C2 & I2). unfold extends.
  rewrite L2, L1, app_assoc. repeat split; congruence.
Qed.

Lemma extends_add_events (s : State) (evs : list Event) :
  extends s (add_events evs s) evs.
Proof. unfold extends. auto. Qed.

Lemma extends_set_lastOp (s : State) (v : option CrudEntry) :
  extends s (set_lastOp v s) [].
Proof. unfold extends. cbn. rewrite app_nil_r. auto. Qed.

Lemma extends_op1 (s : State) (v : option CrudEntry) (e1 : list Event) :
  extends s (add_events e1 (set_lastOp v s)) e1.
Proof. unfold extends. cbn. auto. Qed.

Lemma extends_op2 (s : State) (v : option CrudEntry) (e1 e2 : list Event) :
  extends s (add_events e2 (add_events e1 (set_lastOp v s))) (e1 ++ e2).
Proof. unfold extends. cbn. rewrite app_assoc. auto. Qed.

(** One pass through the body of the loop, case by case. *)
Lemma upload_op_run (this : SupabaseClient) (op : CrudEntry) (s : State) :
  upload_op this op s =
  let s1 := set_lastOp (Some op) s in
  match request_of op with
  | None => (Throw (TypeError "error"), s1)
  | Some q =>
      match postgrest this (length (requests (log s))) q with
      | Rejected ex => (Throw ex, add_events [Sent q] s1)
      | Fulfilled r =>
          match error r with
          | None => (Normal tt, add_events [Sent q] s1)
          | Some f =>
              (Throw (upload_error f),
               add_events [ConsoleErrorFault f] (add_events [Sent q] s1))
          end
      end
  end.
Proof.
  unfold upload_op, request_of, await_query, bind, get, emit, modify, ret.
  destruct (ce_op op); cbn -[requests]; try reflexivity;
    match goal with
    | |- context [postgrest this ?n ?q] => destruct (postgrest this n q) as [r|ex]
    end; cbn; try reflexivity;
    match goal with
    | |- context [error ?x] => destruct (error x)
    end; reflexivity.
Qed.

Lemma for_of_app {A} (xs ys : list A) (body : A → M unit) (s : State) :
  for_of (xs ++ ys) body s =
  match for_of xs body s with
  | (Normal _, s') => for_of ys body s'
  | (Throw ex, s') => (Throw ex, s')
  end.
Proof.
  revert s. induction xs as [|x xs IH]; intros s; cbn; [reflexivity|].
  unfold bind. destruct (body x s) as [[[]|ex] s']; [apply IH | reflexivity].
Qed.

Lemma receives_tail (this : SupabaseClient) (s s' : State) (op : CrudEntry)
    (ops : list CrudEntry) (i : nat) (r : Settled PostgrestResponse) :
  length (requests (log s')) = S (length (requests (log s))) →
  receives this s (op :: ops) (S i) r → receives this s' ops i r.
Proof.
  intros Hlen (op' & q & Hop & Hq & Hr). exists op', q.
  repeat split; [exact Hop | exact Hq |].
  rewrite Hlen. rewrite <- Hr. f_equal. lia.
Qed.

(** As long as every entry is answered with success the loop goes on:
    one request per entry, in the order of the batch. *)
Lemma for_of_upload_ok (this : SupabaseClient) (ops : list CrudEntry) (s : State) :
  (∀ i, i < length ops → receives this s ops i (Fulfilled ok_response)) →
  ∃ s' qs, for_of ops (upload_op this) s = (Normal tt, s') ∧
           extends s s' (Sent <$> qs) ∧
           Some <$> qs = request_of <$> ops.
Proof.
  revert s. induction ops as [|op ops IH]; intros s Hall.
  - exists s, []. cbn. split; [reflexivity|]. split; [apply extends_refl | reflexivity].
  - destruct (Hall 0) as (op0 & q & Hop & Hq & Hr); [cbn; lia|].
    cbn in Hop. injection Hop as <-.
    cbn [for_of]. unfold bind. rewrite upload_op_run. cbn zeta.
    rewrite Hq. rewrite Nat.add_0_r in Hr. rewrite Hr. cbn [error ok_response].
    set (s1 := add_events [Sent q] (set_lastOp (Some op) s)).
    destruct (IH s1) as (s' & qs & Hrun & Hext & Hqs).
    { intros i Hi. apply (receives_tail this s s1 op); [|apply Hall; cbn; lia].
      subst s1. cbn. rewrite requests_app, length_app. cbn. lia. }
    exists s', (q :: qs). split; [exact Hrun|]. split.
    + change (Sent <$> q :: qs) with ([Sent q] ++ (Sent <$> qs))%list.
      eapply extends_trans; [|exact Hext].
      subst s1. unfold extends. cbn. auto.
    + cbn. rewrite Hq, Hqs. reflexivity.
Qed.

(** The loop up to entry [k], when the entries before it succeed. *)
Lemma for_of_upload_upto (this : SupabaseClient) (ops : list CrudEntry)
    (k : nat) (op : CrudEntry) (s : State) :
  ops !! k = Some op →
  (∀ i, i < k → receives this s ops i (Fulfilled ok_response)) →
  ∃ s1 qs, extends s s1 (Sent <$> qs) ∧
           Some <$> qs = request_of <$> take k ops ∧
           length qs = k ∧
           for_of ops (upload_op this) s =
           bind (upload_op this op) (fun _ => for_of (drop (S k) ops) (upload_op this)) s1.
Proof.
  intros Hk Hall.
  assert (Hlt : k < length ops) by (eapply lookup_lt_Some; exact Hk).
  destruct (for_of_upload_ok this (take k ops) s) as (s1 & qs & Hrun & Hext & Hqs).
  { intros i Hi. rewrite length_take in Hi.
    destruct (Hall i) as (op' & q & Hop & Hq & Hr); [lia|].
    exists op', q. repeat split; [|exact Hq|exact Hr].
    rewrite lookup_take_lt by lia. exact Hop. }
  exists s1, qs. split; [exact Hext|]. split; [exact Hqs|]. split.
  - apply (f_equal length) in Hqs. rewrite !length_fmap, length_take in Hqs. lia.
  - rewrite <- (take_drop_middle ops k op Hk) at 1.
    rewrite for_of_app, Hrun. reflexivity.
Qed.

(** The catch block, case by case. *)
Lemma upload_catch_run (t : CrudTransaction) (ex : Thrown) (s : State) :
  upload_catch t ex s =
  let s1 := add_events [ConsoleDebug ex] s in
  match ex with
  | Nullish => (Throw (TypeError "code"), s1)
  | _ =>
      if discards ex
      then (Normal tt,
            add_events [Complete t] (add_events [ConsoleErrorDiscard (lastOp s) ex] s1))
      else (Throw ex, s1)
  end.
Proof.
  unfold upload_catch, bind, emit, modify, get, complete, throw.
  destruct ex as [m|p|m [|c|]|]; cbn -[fatal_code]; try reflexivity.
  destruct (fatal_code c); reflexivity.
Qed.

Lemma uploadData_pending (this : SupabaseClient) (database : AbstractPowerSyncDatabase)
    (t : CrudTransaction) (s : State) :
  nextCrudTransaction database = Some t →
  uploadData this database s =
  try_catch (for_of (crud t) (upload_op this) ;; complete t) (upload_catch t)
            (set_lastOp None (add_events [GetNextCrudTransaction] s)).
Proof.
  intros H. unfold uploadData, getNextCrudTransaction, bind, emit, modify, ret.
  cbn. rewrite H. reflexivity.
Qed.

Lemma receives_entered (this : SupabaseClient) (s : State) (ops : list CrudEntry)
    (i : nat) (r : Settled PostgrestResponse) :
  receives this s ops i r →
  receives this (set_lastOp None (add_events [GetNextCrudTransaction] s)) ops i r.
Proof.
  intros (op & q & Hop & Hq & Hr). exists op, q.
  repeat split; [exact Hop | exact Hq |].
  cbn. rewrite requests_app. cbn. rewrite app_nil_r. exact Hr.
Qed.

(** When the entries before [k] succeed, an invocation reaches entry [k]
    after one request for each of them; whatever the body throws there is
    handed to the catch block. *)
Lemma uploadData_throws_at (this : SupabaseClient) (database : AbstractPowerSyncDatabase)
    (t : CrudTransaction) (s : State) (k : nat) (op : CrudEntry) :
  nextCrudTransaction database = Some t →
  crud t !! k = Some op →
  (∀ i, i < k → receives this s (crud t) i (Fulfilled ok_response)) →
  ∃ s1 qs,
    extends s s1 (GetNextCrudTransaction :: (Sent <$> qs)) ∧
    Some <$> qs = request_of <$> take k (crud t) ∧
    length (requests (log s1)) = length (requests (log s)) + k ∧
    ∀ ex s2, upload_op this op s1 = (Throw ex, s2) →
             uploadData this database s = upload_catch t ex s2.
Proof.
  intros Hdb Hk Hall.
  set (s0 := set_lastOp None (add_events [GetNextCrudTransaction] s)).
  destruct (for_of_upload_upto this (crud t) k op s0 Hk) as (s1 & qs & Hext & Hqs & Hlen & Hrun).
  { intros i Hi. apply receives_entered, Hall, Hi. }
  exists s1, qs. split; [|split; [exact Hqs|split]].
  - change (GetNextCrudTransaction :: (Sent <$> qs))
      with ([GetNextCrudTransaction] ++ (Sent <$> qs))%list.
    eapply extends_trans; [|exact Hext]. subst s0. unfold extends. cbn. auto.
  - destruct Hext as (Hlog & _). rewrite Hlog, requests_app, requests_Sent, length_app.
    subst s0. cbn. rewrite requests_app. cbn. rewrite app_nil_r. lia.
  - intros ex s2 Hop. rewrite (uploadData_pending this database t s Hdb).
    fold s0. unfold try_catch, bind at 1. rewrite Hrun. unfold bind. rewrite Hop.
    reflexivity.
Qed.

(** A response that carries a fault at entry [k]: the body throws a new
    [Error], the catch block finds no code on it and throws it again. *)
Lemma uploadData_fault (this : SupabaseClient) (database : AbstractPowerSyncDatabase)
    (t : CrudTransaction) (s : State) (k : nat) (f : Fault) :
  nextCrudTransaction database = Some t →
  (∀ i, i < k → receives this s (crud t) i (Fulfilled ok_response)) →
  receives this s (crud t) k (Fulfilled (fault_response f)) →
  ∃ s' evs,
    uploadData this database s = (Throw (upload_error f), s') ∧
    extends s s' evs ∧
    Some <$> requests evs = request_of <$> take (S k) (crud t) ∧
    completions evs = [].
Proof.
  intros Hdb Hall (op & q & Hk & Hq & Hr).
  destruct (uploadData_throws_at this database t s k op Hdb Hk Hall)
    as (s1 & qs & Hext & Hqs & Hlen & Hthrow).
  pose proof (upload_op_run this op s1) as Hop. cbn zeta in Hop.
  rewrite Hq, Hlen, Hr in Hop. cbn [error fault_response] in Hop.
  rewrite (Hthrow _ _ Hop), upload_catch_run. cbn zeta. cbn [upload_error discards].
  eexists _, ((GetNextCrudTransaction :: (Sent <$> qs)) ++
              [Sent q; ConsoleErrorFault f; ConsoleDebug (upload_error f)])%list.
  split; [reflexivity|]. split; [|split].
  - eapply extends_trans; [exact Hext|]. unfold extends. cbn.
    rewrite <- !app_assoc. auto.
  - rewrite requests_app. cbn. rewrite requests_Sent.
    rewrite (take_S_r _ _ _ Hk), !fmap_app, Hqs. cbn. rewrite Hq. reflexivity.
  - rewrite completions_app.
    change (completions (GetNextCrudTransaction :: (Sent <$> qs)))
      with (completions (Sent <$> qs)).
    rewrite completions_Sent. reflexivity.
Qed.

(** The loop under any responses: requests go out for a prefix of the
    batch, entry by entry; the prefix covers every entry that has a
    request and is reached after successes only; the loop itself
    completes nothing and notifies nobody. *)
Lemma for_of_upload_any (this : SupabaseClient) (ops : list CrudEntry) (s : State) :
  ∃ out s' evs n,
    for_of ops (upload_op this) s = (out, s') ∧
    extends s s' evs ∧
    completions evs = [] ∧
    initialized_notifications evs = [] ∧
    Some <$> requests evs = take n (request_of <$> ops) ∧
    (∀ k op q, ops !! k = Some op → request_of op = Some q →
       (∀ i, i < k → receives this s ops i (Fulfilled ok_response)) → k < n).
Proof.
  revert s. induction ops as [|op ops IH]; intros s.
  - exists (Normal tt), s, [], 0. cbn.
    split; [reflexivity|]. split; [apply extends_refl|].
    repeat split; auto. intros k op q Hk. discriminate.
  - cbn [for_of]. unfold bind. rewrite upload_op_run. cbn zeta.
    assert (Hfirst : ∀ k, 0 < k →
      (∀ i, i < k → receives this s (op :: ops) i (Fulfilled ok_response)) →
      ∃ q, request_of op = Some q ∧
           postgrest this (length (requests (log s))) q = Fulfilled ok_response).
    { intros k Hk Hall. destruct (Hall 0 Hk) as (op0 & q0 & Hop & Hq0 & Hr).
      cbn in Hop. injection Hop as <-. rewrite Nat.add_0_r in Hr. eauto. }
    destruct (request_of op) as [q|] eqn:Hq.
    + destruct (postgrest this (length (requests (log s))) q) as [r|ex] eqn:Hr.
      * destruct (error r) as [f|] eqn:Hf.
        -- eexists _, _, [Sent q; ConsoleErrorFault f], 1.
           split; [reflexivity|].
           split; [apply (extends_op2 s _ [Sent q] [ConsoleErrorFault f])|].
           cbn. rewrite Hq. repeat split; auto.
           intros [|k] op' q' _ _ Hall; [lia|].
           destruct (Hfirst (S k)) as (q0 & Hq0 & Hr0); [lia | exact Hall |].
           injection Hq0 as <-. rewrite Hr in Hr0. injection Hr0 as ->.
           discriminate Hf.
        -- set (s1 := add_events [Sent q] (set_lastOp (Some op) s)).
           destruct (IH s1) as (out & s' & evs & n & Hrun & Hext & Hc & Hi & Hreq & Hn).
           exists out, s', ([Sent q] ++ evs)%list, (S n).
           split; [exact Hrun|]. split; [|split; [|split; [|split]]].
           ++ eapply extends_trans; [|exact Hext]. apply extends_op1.
           ++ exact Hc.
           ++ exact Hi.
           ++ change (Some <$> requests ([Sent q] ++ evs))
                with (Some q :: (Some <$> requests evs)).
              change (take (S n) (request_of <$> op :: ops))
                with (request_of op :: take n (request_of <$> ops)).
              rewrite Hq, Hreq. reflexivity.
           ++ intros [|k] op' q' Hk Hq' Hall; [lia|].
              apply -> Nat.succ_lt_mono. apply (Hn k op' q' Hk Hq').
              intros i Hi'. apply (receives_tail this s s1 op); [|apply Hall; lia].
              subst s1. cbn. rewrite requests_app, length_app. cbn. lia.
      * eexists _, _, [Sent q], 1. split; [reflexivity|].
        split; [apply extends_op1|]. cbn. rewrite Hq. repeat split; auto.
        intros [|k] op' q' _ _ Hall; [lia|].
        destruct (Hfirst (S k)) as (q0 & Hq0 & Hr0); [lia | exact Hall |].
        injection Hq0 as <-. rewrite Hr in Hr0. discriminate Hr0.
    + eexists _, _, [], 0. split; [reflexivity|].
      split; [apply extends_set_lastOp|]. cbn. repeat split; auto.
      intros [|k] op' q' Hk Hq' Hall.
      * cbn in Hk. injection Hk as <-. congruence.
      * destruct (Hfirst (S k)) as (q0 & Hq0 & _); [lia | exact Hall |]. discriminate.
Qed.

(** An invocation with a pending transaction under any responses. *)
Lemma uploadData_any (this : SupabaseClient) (database : AbstractPowerSyncDatabase)
    (t : CrudTransaction) (s : State) :
  nextCrudTransaction database = Some t →
  ∃ out s' evs n,
    uploadData this database s = (out, s') ∧
    extends s s' evs ∧
    initialized_notifications evs = [] ∧
    Some <$> requests evs = take n (request_of <$> crud t) ∧
    (∀ k op q, crud t !! k = Some op → request_of op = Some q →
       (∀ i, i < k → receives this s (crud t) i (Fulfilled ok_response)) → k < n) ∧
    ((out = Normal tt ∧ completions evs = [t]) ∨
     (∃ ex, out = Throw ex ∧ completions evs = [])).
Proof.
  intros Hdb. rewrite (uploadData_pending this database t s Hdb).
  set (s0 := set_lastOp None (add_events [GetNextCrudTransaction] s)).
  assert (H0 : extends s s0 [GetNextCrudTransaction]) by (unfold extends; cbn; auto).
  destruct (for_of_upload_any this (crud t) s0)
    as (out & s1 & evs & n & Hrun & Hext & Hc & Hi & Hreq & Hn0).
  assert (Hn : ∀ k op q, crud t !! k = Some op → request_of op = Some q →
       (∀ i, i < k → receives this s (crud t) i (Fulfilled ok_response)) → k < n).
  { intros k op q Hk Hq Hall. apply (Hn0 k op q Hk Hq).
    intros i Hlt. apply receives_entered, Hall, Hlt. }
  clear Hn0.
  pose proof (extends_trans _ _ _ _ _ H0 Hext) as H1.
  unfold try_catch, bind. rewrite Hrun.
  destruct out as [[]|ex].
  - eexists _, _, (([GetNextCrudTransaction] ++ evs) ++ [Complete t])%list, n.
    split; [reflexivity|]. split; [|split; [|split; [|split]]].
    + eapply extends_trans; [exact H1|]. apply extends_add_events.
    + rewrite !initialized_notifications_app, Hi. reflexivity.
    + rewrite !requests_app, !fmap_app, Hreq. exact (app_nil_r _).
    + exact Hn.
    + left. split; [reflexivity|]. rewrite !completions_app, Hc. reflexivity.
  - rewrite upload_catch_run. cbn zeta.
    set (evs' := (([GetNextCrudTransaction] ++ evs) ++ [ConsoleDebug ex])%list).
    assert (He' : extends s (add_events [ConsoleDebug ex] s1) evs').
    { eapply extends_trans; [exact H1|]. apply extends_add_events. }
    assert (Hi' : initialized_notifications evs' = []).
    { subst evs'. rewrite !initialized_notifications_app, Hi. reflexivity. }
    assert (Hr' : Some <$> requests evs' = take n (request_of <$> crud t)).
    { subst evs'. rewrite !requests_app, !fmap_app, Hreq. exact (app_nil_r _). }
    assert (Hc' : completions evs' = []).
    { subst evs'. rewrite !completions_app, Hc. reflexivity. }
    clearbody evs'.
    assert (Hcases : (ex ≠ Nullish ∧ discards ex = true) ∨ ex = Nullish ∨ discards ex = false).
    { destruct ex as [m|p|m c|]; destruct (discards _) eqn:E; auto. }
    destruct Hcases as [[Hne Hd]|Hcases].
    + eexists (Normal tt), _,
        (evs' ++ [ConsoleErrorDiscard (lastOp s1) ex; Complete t])%list, n.
      split.
      { destruct ex; try congruence; rewrite Hd; reflexivity. }
      split; [|split; [|split; [|split]]].
      * eapply extends_trans; [exact He'|]. unfold extends. cbn.
        rewrite <- !app_assoc. auto.
      * rewrite initialized_notifications_app, Hi'. reflexivity.
      * rewrite requests_app, fmap_app, Hr'. exact (app_nil_r _).
      * exact Hn.
      * left. split; [reflexivity|]. rewrite completions_app, Hc'. reflexivity.
    + eexists (Throw (match ex with Nullish => TypeError "code" | _ => ex end)), _, evs', n.
      split.
      { destruct Hcases as [->|Hd]; [reflexivity|].
        destruct ex; try reflexivity; rewrite Hd; reflexivity. }
      split; [exact He'|]. split; [exact Hi'|]. split; [exact Hr'|].
      split; [exact Hn|].
      right. eexists. split; [reflexivity | exact Hc'].
Qed.

(** The request found at position [k] of a run, read off the prefix of
    the batch the run has sent requests for. *)
Lemma sent_at (qs : list Request) (R : list (option Request)) (n k : nat)
    (o : option Request) :
  Some <$> qs = take n R →
  R !! k = Some o →
  (∀ q, o = Some q → k < n) →
  qs !! k = o.
Proof.
  intros Hpre HR Hn.
  assert (Hk : (Some <$> qs) !! k = Some <$> qs !! k) by apply list_lookup_fmap.
  rewrite Hpre in Hk. destruct o as [q|].
  - rewrite lookup_take_lt in Hk by (apply (Hn q); reflexivity).
    rewrite HR in Hk. destruct (qs !! k); cbn in Hk; congruence.
  - destruct (qs !! k) as [q'|] eqn:E; [|reflexivity]. cbn in Hk.
    destruct (decide (k < n)) as [Hlt|Hge].
    + rewrite lookup_take_lt in Hk by exact Hlt. congruence.
    + rewrite lookup_take_ge in Hk by lia. discriminate.
Qed.

(* ===================================================================== *)
(** ** [uploadData]: what an invocation does *)
(* ===================================================================== *)

Lemma uploadData_none (this : SupabaseClient) (database : AbstractPowerSyncDatabase)
    (s : State) :
  nextCrudTransaction database = None →
  uploadData this database s = (Normal tt, add_events [GetNextCrudTransaction] s).
Proof.
  intros H. unfold uploadData, getNextCrudTransaction, bind, emit, modify, ret. cbn.
  rewrite H. reflexivity.
Qed.

(** C6. When the local database has no pending transaction, [uploadData]
    returns at once: it sends no request, writes no completion marker and
    throws nothing; asking the database is all it has done. *)
Theorem uploadData_nothing_pending (this : SupabaseClient)
    (database : AbstractPowerSyncDatabase) (s : State) :
  nextCrudTransaction database = None →
  uploadData this database s = (Normal tt, add_events [GetNextCrudTransaction] s) ∧
  requests (log (snd (uploadData this database s))) = requests (log s) ∧
  completions (log (snd (uploadData this database s))) = completions (log s).
Proof.
  intros H. rewrite (uploadData_none this database s H). cbn [snd add_events log].
  rewrite requests_app, completions_app. cbn. rewrite !app_nil_r. auto.
Qed.

Lemma uploadData_nothing_pending_witness :
  uploadData (client_with 0 (Fulfilled ok_response)) {| nextCrudTransaction := None |}
             constructor
  = (Normal tt, add_events [GetNextCrudTransaction] constructor).
Proof.
  apply (uploadData_nothing_pending (client_with 0 (Fulfilled ok_response))
           {| nextCrudTransaction := None |} constructor).
  reflexivity.
Defined.

(** C5. When every entry of the pending transaction is answered with
    success, [uploadData] sends exactly one request per entry, in the
    order of the batch, then marks the transaction complete and returns. *)
Theorem uploadData_all_succeed (this : SupabaseClient)
    (database : AbstractPowerSyncDatabase) (t : CrudTransaction) (s : State) :
  nextCrudTransaction database = Some t →
  (∀ i, i < length (crud t) → receives this s (crud t) i (Fulfilled ok_response)) →
  ∃ s' qs,
    uploadData this database s = (Normal tt, s') ∧
    log s' = (log s ++ GetNextCrudTransaction :: (Sent <$> qs) ++ [Complete t])%list ∧
    Some <$> qs = request_of <$> crud t.
Proof.
  intros Hdb Hall. rewrite (uploadData_pending this database t s Hdb).
  set (s0 := set_lastOp None (add_events [GetNextCrudTransaction] s)).
  destruct (for_of_upload_ok this (crud t) s0) as (s1 & qs & Hrun & Hext & Hqs).
  { intros i Hi. apply receives_entered, Hall, Hi. }
  exists (add_events [Complete t] s1), qs.
  unfold try_catch, bind. rewrite Hrun. split; [reflexivity|]. split; [|exact Hqs].
  destruct Hext as (Hlog & _). cbn [add_events log]. rewrite Hlog.
  subst s0. cbn [set_lastOp add_events log]. rewrite <- !app_assoc. reflexivity.
Qed.

Lemma uploadData_all_succeed_witness :
  ∃ s' qs,
    uploadData (client_with 9 (Rejected Nullish)) (pending batch3) constructor
      = (Normal tt, s') ∧
    log s' = (log constructor ++
              GetNextCrudTransaction :: (Sent <$> qs) ++ [Complete batch3])%list ∧
    Some <$> qs = request_of <$> crud batch3.
Proof.
  apply (uploadData_all_succeed (client_with 9 (Rejected Nullish)) (pending batch3)
           batch3 constructor).
  - reflexivity.
  - intros i Hi. cbn in Hi.
    destruct i as [|[|[|i]]]; [| | |lia];
      eexists _, _; (split; [reflexivity|]); (split; reflexivity).
Defined.

(** C2. When entry [k] is the first one answered with a fault, and the
    fault's code is classified as transient, [uploadData] has sent the
    requests of entries up to [k] and no other, writes no completion
    marker, and throws to its caller. *)
Theorem uploadData_transient_fault (this : SupabaseClient)
    (database : AbstractPowerSyncDatabase) (t : CrudTransaction) (s : State)
    (k : nat) (f : Fault) :
  nextCrudTransaction database = Some t →
  (∀ i, i < k → receives this s (crud t) i (Fulfilled ok_response)) →
  receives this s (crud t) k (Fulfilled (fault_response f)) →
  classification (fault_code f) = Transient →
  ∃ s' evs,
    uploadData this database s = (Throw (upload_error f), s') ∧
    log s' = (log s ++ evs)%list ∧
    Some <$> requests evs = request_of <$> take (S k) (crud t) ∧
    completions evs = [].
Proof.
  intros Hdb Hall Hk _.
  destruct (uploadData_fault this database t s k f Hdb Hall Hk)
    as (s' & evs & Hrun & (Hlog & _) & Hreq & Hc).
  exists s', evs. auto.
Qed.

Lemma uploadData_transient_fault_witness :
  ∃ s' evs,
    uploadData (client_with 1 (Fulfilled (fault_response connection_failure)))
               (pending batch3) constructor
      = (Throw (upload_error connection_failure), s') ∧
    log s' = (log constructor ++ evs)%list ∧
    Some <$> requests evs = request_of <$> take 2 (crud batch3) ∧
    completions evs = [].
Proof.
  apply (uploadData_transient_fault
           (client_with 1 (Fulfilled (fault_response connection_failure)))
           (pending batch3) batch3 constructor 1 connection_failure).
  - reflexivity.
  - intros i Hi. destruct i as [|i]; [|lia].
    eexists _, _; (split; [reflexivity|]); (split; reflexivity).
  - eexists _, _; (split; [reflexivity|]); (split; reflexivity).
  - reflexivity.
Defined.

(** C8. Whatever its code, a fault carried by a response is thrown again
    as a new [Error] that has the fault's message and no [code]; the catch
    block therefore never discards on it: the error reaches the caller and
    no completion marker is written. *)
Theorem uploadData_fault_loses_code (this : SupabaseClient)
    (database : AbstractPowerSyncDatabase) (t : CrudTransaction) (s : State)
    (k : nat) (f : Fault) :
  nextCrudTransaction database = Some t →
  (∀ i, i < k → receives this s (crud t) i (Fulfilled ok_response)) →
  receives this s (crud t) k (Fulfilled (fault_response f)) →
  (∀ s0, get_code (upload_error f) s0 = (Normal CodeUndefined, s0)) ∧
  discards (upload_error f) = false ∧
  ∃ s' evs,
    uploadData this database s = (Throw (upload_error f), s') ∧
    log s' = (log s ++ evs)%list ∧
    completions evs = [].
Proof.
  intros Hdb Hall Hk.
  split; [reflexivity|]. split; [reflexivity|].
  destruct (uploadData_fault this database t s k f Hdb Hall Hk)
    as (s' & evs & Hrun & (Hlog & _) & _ & Hc).
  exists s', evs. auto.
Qed.

Lemma uploadData_fault_loses_code_witness :
  fatal_code (fault_code unique_violation) = true ∧
  ∃ s' evs,
    uploadData (client_with 0 (Fulfilled (fault_response unique_violation)))
               (pending batch3) constructor
      = (Throw (upload_error unique_violation), s') ∧
    log s' = (log constructor ++ evs)%list ∧
    completions evs = [].
Proof.
  split; [reflexivity|].
  apply (uploadData_fault_loses_code
           (client_with 0 (Fulfilled (fault_response unique_violation)))
           (pending batch3) batch3 constructor 0 unique_violation).
  - reflexivity.
  - intros i Hi. lia.
  - eexists _, _; (split; [reflexivity|]); (split; reflexivity).
Defined.

(** C3. For a pending transaction and any answers of the backend,
    [uploadData] ends in exactly one of two ways: it returns and the
    completion marker of the transaction has been written exactly once,
    or it throws and no completion marker has been written. *)
Theorem uploadData_complete_or_pending (this : SupabaseClient)
    (database : AbstractPowerSyncDatabase) (t : CrudTransaction) (s : State) :
  nextCrudTransaction database = Some t →
  ∃ out s' evs,
    uploadData this database s = (out, s') ∧
    log s' = (log s ++ evs)%list ∧
    ((out = Normal tt ∧ completions evs = [t]) ∨
     (∃ ex, out = Throw ex ∧ completions evs = [])).
Proof.
  intros Hdb.
  destruct (uploadData_any this database t s Hdb)
    as (out & s' & evs & n & Hrun & (Hlog & _) & _ & _ & _ & Hend).
  exists out, s', evs. auto.
Qed.

Lemma uploadData_complete_or_pending_witness :
  ∃ out s' evs,
    uploadData (client_with 2 (Rejected (Rejection "denied" (CodeString (js "42501")))))
               (pending batch3) constructor = (out, s') ∧
    log s' = (log constructor ++ evs)%list ∧
    ((out = Normal tt ∧ completions evs = [batch3]) ∨
     (∃ ex, out = Throw ex ∧ completions evs = [])).
Proof.
  apply (uploadData_complete_or_pending
           (client_with 2 (Rejected (Rejection "denied" (CodeString (js "42501")))))
           (pending batch3) batch3 constructor).
  reflexivity.
Defined.

(** C7. Every entry that [uploadData] reaches is sent according to its
    kind: a PUT as an upsert into the entry's table of a record that has
    the entry's data and its id; a PATCH as an update with the entry's
    data, filtered to the row whose id is the entry's; a DELETE as a
    delete with the same filter. *)
Theorem uploadData_dispatch_by_kind (this : SupabaseClient)
    (database : AbstractPowerSyncDatabase) (t : CrudTransaction) (s : State) :
  nextCrudTransaction database = Some t →
  ∃ out s' evs,
    uploadData this database s = (out, s') ∧
    log s' = (log s ++ evs)%list ∧
    ∀ k op,
      crud t !! k = Some op →
      (∀ i, i < k → receives this s (crud t) i (Fulfilled ok_response)) →
      match ce_op op with
      | PUT =>
          ∃ record : Obj,
            requests evs !! k =
              Some {| req_table := ce_table op; req_method := Upsert;
                      req_body := Some record; req_filters := [] |} ∧
            record !! "id" = Some (VStr (ce_id op)) ∧
            ∀ column, column ≠ "id" →
              record !! column = ce_opData op ≫= (fun data => data !! column)
      | PATCH =>
          requests evs !! k =
            Some {| req_table := ce_table op; req_method := Update;
                    req_body := ce_opData op;
                    req_filters := [("id", VStr (ce_id op))] |}
      | DELETE =>
          requests evs !! k =
            Some {| req_table := ce_table op; req_method := Delete;
                    req_body := None;
                    req_filters := [("id", VStr (ce_id op))] |}
      | OTHER _ => requests evs !! k = None
      end.
Proof.
  intros Hdb.
  destruct (uploadData_any this database t s Hdb)
    as (out & s' & evs & n & Hrun & (Hlog & _) & _ & Hpre & Hn & _).
  exists out, s', evs. split; [exact Hrun|]. split; [exact Hlog|].
  intros k op Hk Hall.
  assert (Hsent : requests evs !! k = request_of op).
  { apply (sent_at _ _ n k _ Hpre).
    - rewrite list_lookup_fmap, Hk. reflexivity.
    - intros q Hq. exact (Hn k op q Hk Hq Hall). }
  rewrite Hsent. unfold request_of.
  destruct (ce_op op); try reflexivity.
  eexists. split; [reflexivity|]. split.
  - apply lookup_insert_eq.
  - intros column Hc. rewrite lookup_insert_ne by congruence.
    unfold spread. destruct (ce_opData op); [reflexivity | apply lookup_empty].
Qed.

Lemma uploadData_dispatch_by_kind_witness :
  ∃ out s' evs,
    uploadData (client_with 2 (Fulfilled (fault_response connection_failure)))
               (pending batch3) constructor = (out, s') ∧
    log s' = (log constructor ++ evs)%list ∧
    requests evs !! 1 =
      Some {| req_table := "todos"; req_method := Update;
              req_body := Some {[ "completed" := VNum 1 ]};
              req_filters := [("id", VStr "7f3a")] |}.
Proof.
  destruct (uploadData_dispatch_by_kind
              (client_with 2 (Fulfilled (fault_response connection_failure)))
              (pending batch3) batch3 constructor)
    as (out & s' & evs & Hrun & Hlog & Hkind); [reflexivity|].
  exists out, s', evs. split; [exact Hrun|]. split; [exact Hlog|].
  apply (Hkind 1 todo_patch); [reflexivity|].
  intros i Hi. destruct i as [|i]; [|lia].
  eexists _, _; (split; [reflexivity|]); (split; reflexivity).
Defined.

(** C9. When [uploadData] reaches an entry whose kind is none of PUT,
    PATCH and DELETE, it sends nothing for that entry and throws the
    TypeError of reading [error] off undefined; that error has no [code],
    so no completion marker is written and the transaction stays
    pending, as after a transient fault. *)
Theorem uploadData_unknown_kind (this : SupabaseClient)
    (database : AbstractPowerSyncDatabase) (t : CrudTransaction) (s : State)
    (k : nat) (op : CrudEntry) :
  nextCrudTransaction database = Some t →
  crud t !! k = Some op →
  ce_op op ≠ PUT → ce_op op ≠ PATCH → ce_op op ≠ DELETE →
  (∀ i, i < k → receives this s (crud t) i (Fulfilled ok_response)) →
  (∀ s0, get_code (TypeError "error") s0 = (Normal CodeUndefined, s0)) ∧
  ∃ s' evs,
    uploadData this database s = (Throw (TypeError "error"), s') ∧
    log s' = (log s ++ evs)%list ∧
    Some <$> requests evs = request_of <$> take k (crud t) ∧
    requests evs !! k = None ∧
    completions evs = [].
Proof.
  intros Hdb Hk Hput Hpatch Hdelete Hall. split; [reflexivity|].
  assert (Hq : request_of op = None).
  { unfold request_of. destruct (ce_op op); congruence. }
  destruct (uploadData_throws_at this database t s k op Hdb Hk Hall)
    as (s1 & qs & Hext & Hqs & Hlen & Hthrow).
  pose proof (upload_op_run this op s1) as Hop. cbn zeta in Hop. rewrite Hq in Hop.
  rewrite (Hthrow _ _ Hop), upload_catch_run. cbn zeta. cbn [discards].
  eexists _, ((GetNextCrudTransaction :: (Sent <$> qs)) ++
              [ConsoleDebug (TypeError "error")])%list.
  split; [reflexivity|].
  assert (Hreq : requests ((GetNextCrudTransaction :: (Sent <$> qs)) ++
                           [ConsoleDebug (TypeError "error")]) = qs).
  { rewrite requests_app.
    change (requests (GetNextCrudTransaction :: (Sent <$> qs)))
      with (requests (Sent <$> qs)).
    rewrite requests_Sent. apply app_nil_r. }
  split; [|split; [|split]].
  - destruct Hext as (Hlog & _). cbn [add_events set_lastOp log].
    rewrite Hlog, <- app_assoc. reflexivity.
  - rewrite Hreq. exact Hqs.
  - rewrite Hreq. apply lookup_ge_None.
    apply (f_equal length) in Hqs. rewrite !length_fmap, length_take in Hqs.
    apply lookup_lt_Some in Hk. lia.
  - rewrite completions_app.
    change (completions (GetNextCrudTransaction :: (Sent <$> qs)))
      with (completions (Sent <$> qs)).
    rewrite completions_Sent. reflexivity.
Qed.

Lemma uploadData_unknown_kind_witness :
  ∃ s' evs,
    uploadData (client_with 9 (Rejected Nullish)) (pending batch_other) constructor
      = (Throw (TypeError "error"), s') ∧
    log s' = (log constructor ++ evs)%list ∧
    Some <$> requests evs = request_of <$> take 1 (crud batch_other) ∧
    requests evs !! 1 = None ∧
    completions evs = [].
Proof.
  apply (uploadData_unknown_kind (client_with 9 (Rejected Nullish))
           (pending batch_other) batch_other constructor 1 todo_other).
  - reflexivity.
  - reflexivity.
  - discriminate.
  - discriminate.
  - discriminate.
  - intros i Hi. destruct i as [|i]; [|lia].
    eexists _, _; (split; [reflexivity|]); (split; reflexivity).
Defined.

(** A thrown value whose [code] is a string that a pattern matches does
    reach the discarding branch: the transaction is completed once and
    [uploadData] returns. *)
Lemma uploadData_rejection_fatal (this : SupabaseClient)
    (database : AbstractPowerSyncDatabase) (t : CrudTransaction) (s : State)
    (k : nat) (m : string) (c : JsString) :
  nextCrudTransaction database = Some t →
  (∀ i, i < k → receives this s (crud t) i (Fulfilled ok_response)) →
  receives this s (crud t) k (Rejected (Rejection m (CodeString c))) →
  fatal_code c = true →
  ∃ s' evs,
    uploadData this database s = (Normal tt, s') ∧
    log s' = (log s ++ evs)%list ∧
    Some <$> requests evs = request_of <$> take (S k) (crud t) ∧
    completions evs = [t].
Proof.
  intros Hdb Hall (op & q & Hk & Hq & Hr) Hc.
  destruct (uploadData_throws_at this database t s k op Hdb Hk Hall)
    as (s1 & qs & Hext & Hqs & Hlen & Hthrow).
  pose proof (upload_op_run this op s1) as Hop. cbn zeta in Hop.
  rewrite Hq, Hlen, Hr in Hop.
  rewrite (Hthrow _ _ Hop), upload_catch_run. cbn zeta. cbn [discards]. rewrite Hc.
  eexists _, ((GetNextCrudTransaction :: (Sent <$> qs)) ++
              [Sent q; ConsoleDebug (Rejection m (CodeString c));
               ConsoleErrorDiscard (Some op) (Rejection m (CodeString c));
               Complete t])%list.
  split; [reflexivity|]. split; [|split].
  - destruct Hext as (Hlog & _). cbn [add_events set_lastOp log].
    rewrite Hlog, <- !app_assoc. reflexivity.
  - rewrite requests_app.
    change (requests (GetNextCrudTransaction :: (Sent <$> qs)))
      with (requests (Sent <$> qs)).
    rewrite requests_Sent.
    rewrite (take_S_r _ _ _ Hk), !fmap_app, Hqs. cbn. rewrite Hq. reflexivity.
  - rewrite completions_app.
    change (completions (GetNextCrudTransaction :: (Sent <$> qs)))
      with (completions (Sent <$> qs)).
    rewrite completions_Sent. reflexivity.
Qed.

(** C1. The second entry of a batch of three is answered with a fault
    whose code, 23505, is classified as permanent.  [uploadData] has sent
    the first two requests and not the third, as the claim says; but it
    throws to its caller and writes no completion marker, where the claim
    says the batch is marked complete and the call returns. *)
Theorem uploadData_permanent_fault_left_pending :
  let run := uploadData (client_with 1 (Fulfilled (fault_response unique_violation)))
                        (pending batch3) constructor in
  classification (fault_code unique_violation) = Permanent ∧
  fst run = Throw (upload_error unique_violation) ∧
  Some <$> requests (log (snd run)) = request_of <$> take 2 (crud batch3) ∧
  completions (log (snd run)) = [].
Proof. vm_compute. repeat split. Qed.

(** C4. The patterns do classify the codes as the claim says: 23505 and
    42501 are fatal, 08006 is not.  Inside [uploadData], however, the
    condition of the catch block is evaluated on the error thrown for the
    fault, which has no [code]: for faults with the codes 23505 and 42501
    the catch block does not discard, the call throws and no completion
    marker is written. *)
Theorem fatal_code_not_applied_to_fault :
  classification (js "23505") = Permanent ∧
  classification (js "42501") = Permanent ∧
  classification (js "08006") = Transient ∧
  (let run := uploadData (client_with 0 (Fulfilled (fault_response unique_violation)))
                         (pending batch1) constructor in
   discards (upload_error unique_violation) = false ∧
   fst run = Throw (upload_error unique_violation) ∧
   completions (log (snd run)) = []) ∧
  (let run := uploadData (client_with 0 (Fulfilled (fault_response insufficient_privilege)))
                         (pending batch1) constructor in
   discards (upload_error insufficient_privilege) = false ∧
   fst run = Throw (upload_error insufficient_privilege) ∧
   completions (log (snd run)) = []).
Proof. vm_compute. repeat split. Qed.

(* ===================================================================== *)
(** ** [init] and the listeners *)
(* ===================================================================== *)

Lemma notified_cons (p : Listener → bool) (e : Listener → Event)
    (cb : Listener) (ls : list Listener) :
  notified p e (cb :: ls) =
  if p cb then e cb :: notified p e ls else notified p e ls.
Proof. unfold notified. cbn. destruct (p cb); reflexivity. Qed.

(** One round of [iterateListeners] with a callback that may be missing. *)
Lemma for_of_notify (p : Listener → bool) (e : Listener → Event)
    (ls : list Listener) (s : State) :
  ∃ s', for_of ls (fun cb => if p cb then emit (e cb) else ret tt) s = (Normal tt, s') ∧
        extends s s' (notified p e ls).
Proof.
  revert s. induction ls as [|cb ls IH]; intros s.
  - exists s. split; [reflexivity | apply extends_refl].
  - cbn [for_of]. unfold bind. destruct (p cb) eqn:Hp.
    + unfold emit at 1, modify at 1.
      destruct (IH (add_events [e cb] s)) as (s' & Hrun & Hext).
      exists s'. split; [exact Hrun|].
      rewrite notified_cons, Hp.
      change (e cb :: notified p e ls) with ([e cb] ++ notified p e ls)%list.
      eapply extends_trans; [apply extends_add_events | exact Hext].
    + unfold ret at 1. destruct (IH s) as (s' & Hrun & Hext).
      exists s'. split; [exact Hrun|].
      rewrite notified_cons, Hp. exact Hext.
Qed.

Lemma notified_sessionStarted_silent (session : Session) (ls : list Listener) :
  initialized_notifications
    (notified sessionStarted (fun cb => NotifySessionStarted (handle cb) session) ls) = [].
Proof.
  induction ls as [|cb ls IH]; [reflexivity|].
  rewrite notified_cons. destruct (sessionStarted cb); exact IH.
Qed.

(** The handles notified in one round are handles of listeners, each at
    most as often as it is registered. *)
Lemma notified_initialized_sublist (ls : list Listener) :
  initialized_notifications
    (notified initialized (fun cb => NotifyInitialized (handle cb)) ls)
  `sublist_of` (handle <$> ls).
Proof.
  induction ls as [|cb ls IH]; [constructor|].
  rewrite notified_cons, fmap_cons. destruct (initialized cb).
  - apply (sublist_skip (handle cb)), IH.
  - apply sublist_cons, IH.
Qed.

(** [updateSession] stores the session and tells the listeners that
    define [sessionStarted]; it leaves [ready] and the listeners alone. *)
Lemma updateSession_run (session : option Session) (s : State) :
  ∃ s' evs,
    updateSession session s = (Normal tt, s') ∧
    log s' = (log s ++ evs)%list ∧
    initialized_notifications evs = [] ∧
    ready s' = ready s ∧ listeners s' = listeners s ∧
    currentSession s' = session.
Proof.
  unfold updateSession, bind, modify. destruct session as [session|].
  - unfold iterateListeners, bind, get.
    destruct (for_of_notify sessionStarted
                (fun cb => NotifySessionStarted (handle cb) session)
                (listeners (set_currentSession (Some session) s))
                (set_currentSession (Some session) s))
      as (s' & Hrun & Hlog & Hready & Hcur & Hls).
    eexists s', _. split; [exact Hrun|]. split; [exact Hlog|].
    split; [apply notified_sessionStarted_silent|]. auto.
  - exists (set_currentSession None s), []. cbn. rewrite app_nil_r.
    repeat split; reflexivity.
Qed.

Lemma getSession_run (this : SupabaseClient) (s : State) :
  getSession this s =
  match auth_getSession this (length (session_fetches (log s))) with
  | Fulfilled r => (Normal r, add_events [GetSession] s)
  | Rejected ex => (Throw ex, add_events [GetSession] s)
  end.
Proof.
  unfold getSession, bind, get, emit, modify.
  destruct (auth_getSession this _); reflexivity.
Qed.

Lemma signInWithPassword_run (this : SupabaseClient) (u p : string) (s : State) :
  signInWithPassword this u p s =
  match auth_signInWithPassword this (length (sign_ins (log s))) u p with
  | Fulfilled r => (Normal r, add_events [SignInWithPassword u p] s)
  | Rejected ex => (Throw ex, add_events [SignInWithPassword u p] s)
  end.
Proof.
  unfold signInWithPassword, bind, get, emit, modify.
  destruct (auth_signInWithPassword this _ u p); reflexivity.
Qed.

(** [init] on a connector that is ready. *)
Lemma init_ready (this : SupabaseClient) (s : State) :
  ready s = true → init this s = (Normal tt, s).
Proof. intros H. unfold init, bind, get. rewrite H. reflexivity. Qed.

(** [init] on a connector that is not ready: either the session cannot be
    fetched and [ready] stays false, or [ready] is set and one round of
    notifications goes to the listeners. *)
Lemma init_first (this : SupabaseClient) (s : State) :
  ready s = false →
  ∃ out s' evs,
    init this s = (out, s') ∧
    log s' = (log s ++ evs)%list ∧
    listeners s' = listeners s ∧
    ((ready s' = false ∧ initialized_notifications evs = []) ∨
     (ready s' = true ∧
      initialized_notifications evs `sublist_of` (handle <$> listeners s))).
Proof.
  intros H. unfold init, bind at 1, get at 1. rewrite H.
  unfold bind at 1. rewrite getSession_run.
  destruct (auth_getSession this (length (session_fetches (log s)))) as [r|ex].
  - unfold bind at 1.
    destruct (updateSession_run (data_session r) (add_events [GetSession] s))
      as (s1 & evs1 & Hrun & Hlog1 & Hi1 & Hr1 & Hl1 & _).
    rewrite Hrun. unfold bind at 1, modify. unfold iterateListeners, bind, get.
    destruct (for_of_notify initialized (fun cb => NotifyInitialized (handle cb))
                (listeners (set_ready true s1)) (set_ready true s1))
      as (s2 & Hrun2 & Hlog2 & Hr2 & _ & Hl2).
    rewrite Hrun2.
    exists (Normal tt), s2,
      (([GetSession] ++ evs1) ++
       notified initialized (fun cb => NotifyInitialized (handle cb)) (listeners s))%list.
    split; [reflexivity|]. cbn in Hlog2, Hr2, Hl2, Hlog1, Hl1. split; [|split].
    + rewrite Hlog2, Hlog1, Hl1, <- !app_assoc. reflexivity.
    + congruence.
    + right. split; [exact Hr2|].
      rewrite !initialized_notifications_app, Hi1. cbn.
      apply notified_initialized_sublist.
  - exists (Throw ex), (add_events [GetSession] s), [GetSession].
    split; [reflexivity|]. split; [reflexivity|]. split; [reflexivity|].
    left. split; [exact H | reflexivity].
Qed.

(** Every method but [init] leaves [ready] as it is, notifies nobody of
    the initialization and keeps the registered handles distinct. *)
Lemma call_frame (this : SupabaseClient) (c : Call) (s : State) :
  c ≠ CallInit →
  ∃ out s' evs,
    call this c s = (out, s') ∧
    log s' = (log s ++ evs)%list ∧
    initialized_notifications evs = [] ∧
    ready s' = ready s ∧
    (NoDup (handle <$> listeners s) → NoDup (handle <$> listeners s')).
Proof.
  intros Hc. destruct c as [|u p|session|l|database]; [congruence| | | |]; cbn [call].
  - unfold login, bind at 1. rewrite signInWithPassword_run.
    destruct (auth_signInWithPassword this _ u p) as [r|ex].
    + destruct (auth_error r) as [e|].
      * eexists _, _, [SignInWithPassword u p]. split; [reflexivity|]. cbn. auto.
      * destruct (updateSession_run (data_session r) (add_events [SignInWithPassword u p] s))
          as (s' & evs & Hrun & Hlog & Hi & Hr & Hl & _).
        exists (Normal tt), s', ([SignInWithPassword u p] ++ evs)%list.
        split; [exact Hrun|]. cbn in Hlog, Hr, Hl. split; [|split; [|split]].
        -- rewrite Hlog, <- app_assoc. reflexivity.
        -- rewrite initialized_notifications_app, Hi. reflexivity.
        -- exact Hr.
        -- rewrite Hl. auto.
    + eexists _, _, [SignInWithPassword u p]. split; [reflexivity|]. cbn. auto.
  - destruct (updateSession_run session s) as (s' & evs & Hrun & Hlog & Hi & Hr & Hl & _).
    exists (Normal tt), s', evs. rewrite Hl. auto.
  - unfold registerListener, modify. case_bool_decide as Hin.
    + exists (Normal tt), s, []. rewrite app_nil_r. auto.
    + exists (Normal tt), (set_listeners (listeners s ++ [l]) s), [].
      cbn. rewrite app_nil_r. repeat split; auto.
      intros Hnd. rewrite fmap_app. apply NoDup_app. split; [exact Hnd|]. split.
      * intros x Hx Hx'. apply list_elem_of_singleton in Hx'. subst x. auto.
      * apply NoDup_singleton.
  - destruct (nextCrudTransaction database) as [t|] eqn:Hdb.
    + destruct (uploadData_any this database t s Hdb)
        as (out & s' & evs & n & Hrun & (Hlog & Hr & _ & Hl) & Hi & _).
      exists out, s', evs. rewrite Hl. auto.
    + rewrite (uploadData_none this database s Hdb).
      eexists _, _, [GetNextCrudTransaction]. split; [reflexivity|]. cbn. auto.
Qed.

Lemma call_init_or_not (c : Call) : c = CallInit ∨ c ≠ CallInit.
Proof. destruct c; [left; reflexivity | right; discriminate ..]. Qed.

(** Once [ready] is set it stays set, and no later call notifies anybody
    of the initialization. *)
Lemma calls_ready (this : SupabaseClient) (cs : list Call) (s : State) :
  ready s = true →
  ready (calls this cs s) = true ∧
  initialized_notifications (log (calls this cs s)) = initialized_notifications (log s).
Proof.
  revert s. induction cs as [|c cs IH]; intros s H; [auto|]. cbn [calls].
  destruct (call_init_or_not c) as [->|Hc].
  - cbn [call]. rewrite (init_ready this s H). apply IH, H.
  - destruct (call_frame this c s Hc) as (out & s' & evs & Hrun & Hlog & Hi & Hr & _).
    rewrite Hrun. cbn [snd]. destruct (IH s') as (IH1 & IH2); [congruence|].
    split; [exact IH1|].
    rewrite IH2, Hlog, initialized_notifications_app, Hi. apply app_nil_r.
Qed.

Lemma call_inv (this : SupabaseClient) (c : Call) (s : State) :
  connector_inv s → connector_inv (snd (call this c s)).
Proof.
  intros Hinv. pose proof Hinv as (Hnd & Hnot & Honce).
  destruct (call_init_or_not c) as [->|Hc].
  - cbn [call]. destruct (ready s) eqn:Hready.
    + rewrite (init_ready this s Hready). exact Hinv.
    + destruct (init_first this s Hready) as (out & s' & evs & Hrun & Hlog & Hl & Hend).
      rewrite Hrun. cbn [snd]. unfold connector_inv.
      rewrite Hl, Hlog, initialized_notifications_app, (Hnot eq_refl). cbn [app].
      destruct Hend as [[Hr Hi]|[Hr Hsub]].
      * rewrite Hi. repeat split; auto. constructor.
      * repeat split; auto; [congruence|]. exact (sublist_NoDup _ _ Hnd Hsub).
  - destruct (call_frame this c s Hc) as (out & s' & evs & Hrun & Hlog & Hi & Hr & Hl).
    rewrite Hrun. cbn [snd]. unfold connector_inv.
    rewrite Hlog, initialized_notifications_app, Hi, app_nil_r, Hr. auto.
Qed.

Lemma calls_inv (this : SupabaseClient) (cs : list Call) (s : State) :
  connector_inv s → connector_inv (calls this cs s).
Proof.
  revert s. induction cs as [|c cs IH]; intros s H; [exact H|].
  cbn [calls]. apply IH, call_inv, H.
Qed.

Lemma constructor_inv : connector_inv constructor.
Proof. repeat split; constructor. Qed.

(** [init] is its first half followed at once by its second half. *)
Lemma init_split (this : SupabaseClient) (s : State) :
  init this s =
  bind (init_begin this)
       (fun o => match o with
                 | None => ret tt
                 | Some p => init_resume p
                 end) s.
Proof.
  unfold init, init_begin, init_resume, getSession, getSession_call,
    bind, get, emit, modify, ret.
  destruct (ready s); [reflexivity|]. cbn.
  destruct (auth_getSession this _); reflexivity.
Qed.

Lemma init_begin_run (this : SupabaseClient) (s : State) :
  init_begin this s =
  if ready s then (Normal None, s)
  else (Normal (Some (auth_getSession this (length (session_fetches (log s))))),
        add_events [GetSession] s).
Proof.
  unfold init_begin, getSession_call, bind, get, emit, modify, ret.
  destruct (ready s); reflexivity.
Qed.

(** The second half of [init]: a rejected fetch changes nothing; an
    answered one sets [ready] and notifies the listeners once. *)
Lemma init_resume_run (p : Settled AuthResponse) (s : State) :
  ∃ out s' evs,
    init_resume p s = (out, s') ∧
    log s' = (log s ++ evs)%list ∧
    listeners s' = listeners s ∧
    match p with
    | Rejected _ => ready s' = ready s ∧ evs = []
    | Fulfilled _ =>
        ready s' = true ∧
        initialized_notifications evs `sublist_of` (handle <$> listeners s)
    end.
Proof.
  unfold init_resume. destruct p as [r|ex].
  - unfold bind at 1. cbn [await]. unfold ret at 1. unfold bind at 1.
    destruct (updateSession_run (data_session r) s)
      as (s1 & evs1 & Hrun & Hlog1 & Hi1 & Hr1 & Hl1 & _).
    rewrite Hrun. unfold bind at 1, modify. unfold iterateListeners, bind, get.
    destruct (for_of_notify initialized (fun cb => NotifyInitialized (handle cb))
                (listeners (set_ready true s1)) (set_ready true s1))
      as (s2 & Hrun2 & Hlog2 & Hr2 & _ & Hl2).
    rewrite Hrun2.
    exists (Normal tt), s2,
      (evs1 ++ notified initialized (fun cb => NotifyInitialized (handle cb))
                        (listeners s))%list.
    split; [reflexivity|].
    cbn [set_ready log listeners ready] in Hlog2, Hr2, Hl2.
    split; [|split; [congruence|split; [exact Hr2|]]].
    + rewrite Hlog2, Hlog1, Hl1, <- app_assoc. reflexivity.
    + rewrite initialized_notifications_app, Hi1. apply notified_initialized_sublist.
  - exists (Throw ex), s, []. cbn. rewrite app_nil_r. auto.
Qed.

(** A step keeps [config_inv], provided it starts no [init] while one is
    suspended. *)
Lemma step_inv (this : SupabaseClient) (st : Step) (cfg : Config) :
  config_inv cfg →
  (starts_init st = true → snd cfg = []) →
  config_inv (step this st cfg).
Proof.
  destruct cfg as [s pend]. unfold config_inv. cbn [fst snd].
  intros (Hinv & Hpend & Hlen) Hstart.
  destruct st as [c| |i]; cbn [step fst snd].
  - destruct (call_init_or_not c) as [->|Hc].
    + rewrite (Hstart eq_refl). split; [apply call_inv, Hinv|].
      split; [congruence | cbn; lia].
    + split; [apply call_inv, Hinv|]. split; [|exact Hlen].
      destruct (call_frame this c s Hc) as (out & s' & evs & Hrun & _ & _ & Hr & _).
      rewrite Hrun. cbn [snd]. rewrite Hr. exact Hpend.
  - rewrite (Hstart eq_refl), init_begin_run. destruct (ready s) eqn:Hready.
    + cbn [fst snd]. split; [exact Hinv|]. split; [congruence | cbn; lia].
    + cbn [fst snd app]. destruct Hinv as (Hnd & Hnot & Honce).
      split; [|split; [intros _; exact Hready | cbn; lia]].
      unfold connector_inv. cbn [add_events log listeners ready].
      rewrite initialized_notifications_app. cbn. rewrite app_nil_r. auto.
  - destruct (pend !! i) as [p|] eqn:Hp; [|cbn [fst snd]; auto].
    assert (Hne : pend ≠ []) by (intros ->; discriminate).
    assert (Hdel : delete i pend = []).
    { apply nil_length_inv. pose proof (length_delete pend i (mk_is_Some _ _ Hp)). lia. }
    rewrite Hdel. cbn [fst snd].
    destruct Hinv as (Hnd & Hnot & Honce). specialize (Hpend Hne).
    destruct (init_resume_run p s) as (out & s' & evs & Hrun & Hlog & Hl & Hp').
    rewrite Hrun. cbn [snd]. split; [|split; [congruence | cbn; lia]].
    unfold connector_inv.
    rewrite Hl, Hlog, initialized_notifications_app, (Hnot Hpend). cbn [app].
    destruct p as [r|ex].
    + destruct Hp' as (Hr & Hsub). split; [exact Hnd|].
      split; [congruence|]. exact (sublist_NoDup _ _ Hnd Hsub).
    + destruct Hp' as (Hr & ->). split; [exact Hnd|].
      split; [reflexivity | constructor].
Qed.

Lemma steps_inv (this : SupabaseClient) (hist : list Step) (cfg : Config) :
  config_inv cfg →
  init_never_overlaps this hist cfg = true →
  config_inv (steps this hist cfg).
Proof.
  revert cfg. induction hist as [|st hist IH]; intros cfg Hinv Hno; [exact Hinv|].
  cbn [init_never_overlaps] in Hno. apply andb_prop in Hno as [Hst Hno].
  cbn [steps]. apply IH; [|exact Hno]. apply step_inv; [exact Hinv|].
  intros Hs. rewrite Hs in Hst. apply bool_decide_eq_true in Hst. exact Hst.
Qed.

(** C10. On a connector whose [ready] flag is set, [init] returns at
    once and changes nothing: no session is fetched, [currentSession] and
    [ready] stay as they are and no listener is notified; this also holds
    of an invocation that starts while others are still suspended.  The
    flag stays set whatever is called afterwards, so no later call
    notifies anybody of the initialization.  Every listener is notified
    of it at most once over the life of a connector, provided no
    invocation of [init] starts while another one is suspended at its
    [await]: when each call runs to its end before the next, and more
    generally in every history of steps without such an overlap. *)
Theorem init_idempotent_once_ready (this : SupabaseClient) (s : State) :
  ready s = true →
  init this s = (Normal tt, s) ∧
  (∀ cs, ready (calls this cs s) = true ∧
         initialized_notifications (log (calls this cs s)) =
         initialized_notifications (log s)) ∧
  (∀ cs, NoDup (initialized_notifications (log (calls this cs constructor)))) ∧
  (∀ pend, step this InitBegin (s, pend) = (s, pend)) ∧
  (∀ hist,
     init_never_overlaps this hist (constructor, []) = true →
     NoDup (initialized_notifications
              (log (fst (steps this hist (constructor, [])))))).
Proof.
  intros H. split; [apply init_ready, H|]. split; [|split; [|split]].
  - intros cs. apply calls_ready, H.
  - intros cs. apply (calls_inv this cs constructor constructor_inv).
  - intros pend. cbn [step fst snd]. rewrite init_begin_run, H. reflexivity.
  - intros hist Hno.
    destruct (steps_inv this hist (constructor, [])) as ((_ & _ & Honce) & _).
    + unfold config_inv. cbn [fst snd].
      split; [apply constructor_inv|]. split; [congruence | cbn; lia].
    + exact Hno.
    + exact Honce.
Qed.

Lemma init_idempotent_once_ready_witness :
  ready ready_connector = true ∧
  initialized_notifications (log ready_connector) = [1] ∧
  init (client_with 0 (Fulfilled ok_response)) ready_connector
    = (Normal tt, ready_connector).
Proof.
  split; [reflexivity|]. split; [reflexivity|].
  apply (init_idempotent_once_ready (client_with 0 (Fulfilled ok_response))
           ready_connector).
  reflexivity.
Defined.

(** Two invocations of [init] that overlap: the second starts while the
    first is suspended and [ready] is still false, so each of them
    fetches the session and each notifies the listener of the view. *)
Lemma init_overlapping_notifies_twice :
  initialized_notifications
    (log (fst (steps (client_with 0 (Fulfilled ok_response)) overlapping_inits
                     (constructor, []))))
    = [1; 1] ∧
  length (session_fetches
    (log (fst (steps (client_with 0 (Fulfilled ok_response)) overlapping_inits
                     (constructor, []))))) = 2 ∧
  ¬ NoDup (initialized_notifications
    (log (fst (steps (client_with 0 (Fulfilled ok_response)) overlapping_inits
                     (constructor, []))))).
Proof.
  split; [reflexivity|]. split; [reflexivity|].
  change (¬ NoDup [1; 1]). intros Hnd. apply NoDup_cons in Hnd as [Hin _].
  apply Hin. constructor.
Qed.

(* ===================================================================== *)
(** ** More on [init], [login] and [updateSession] *)
(* ===================================================================== *)

Lemma notified_filter (p : Listener → bool) (e : Listener → Event)
    (ls : list Listener) :
  notified p e ls = e <$> List.filter p ls.
Proof.
  induction ls as [|cb ls IH]; [reflexivity|].
  rewrite notified_cons. cbn [List.filter]. destruct (p cb); cbn; congruence.
Qed.

(** [updateSession] with the events it logs. *)
Lemma updateSession_exact (session : option Session) (s : State) :
  ∃ s',
    updateSession session s = (Normal tt, s') ∧
    log s' = (log s ++ session_events session (listeners s))%list ∧
    ready s' = ready s ∧ listeners s' = listeners s ∧
    currentSession s' = session.
Proof.
  unfold updateSession, bind, modify. destruct session as [session|].
  - unfold iterateListeners, bind, get.
    destruct (for_of_notify sessionStarted
                (fun cb => NotifySessionStarted (handle cb) session)
                (listeners (set_currentSession (Some session) s))
                (set_currentSession (Some session) s))
      as (s' & Hrun & Hlog & Hready & Hcur & Hls).
    exists s'. split; [exact Hrun|]. rewrite notified_filter in Hlog.
    cbn [set_currentSession log listeners ready currentSession] in Hlog, Hready, Hcur, Hls.
    repeat split; assumption.
  - exists (set_currentSession None s). cbn. rewrite app_nil_r.
    repeat split; reflexivity.
Qed.

(** [init] on a connector that is not ready, when the session is fetched. *)
Lemma init_fulfilled (this : SupabaseClient) (s : State) (r : AuthResponse) :
  ready s = false →
  auth_getSession this (length (session_fetches (log s))) = Fulfilled r →
  ∃ s',
    init this s = (Normal tt, s') ∧
    ready s' = true ∧
    currentSession s' = data_session r ∧
    listeners s' = listeners s ∧
    log s' = (log s ++ [GetSession]
                    ++ session_events (data_session r) (listeners s)
                    ++ initialized_events (listeners s))%list.
Proof.
  intros H Hget. unfold init, bind at 1, get at 1. rewrite H.
  unfold bind at 1. rewrite getSession_run, Hget. unfold bind at 1.
  destruct (updateSession_exact (data_session r) (add_events [GetSession] s))
    as (s1 & Hrun & Hlog1 & Hr1 & Hl1 & Hc1).
  rewrite Hrun. unfold bind at 1, modify. unfold iterateListeners, bind, get.
  destruct (for_of_notify initialized (fun cb => NotifyInitialized (handle cb))
              (listeners (set_ready true s1)) (set_ready true s1))
    as (s2 & Hrun2 & Hlog2 & Hr2 & Hc2 & Hl2).
  rewrite Hrun2. exists s2. split; [reflexivity|].
  rewrite notified_filter in Hlog2.
  cbn [set_ready add_events log listeners ready currentSession]
    in Hlog2, Hr2, Hl2, Hc2, Hlog1, Hl1.
  split; [exact Hr2|]. split; [congruence|]. split; [congruence|].
  rewrite Hlog2, Hlog1, Hl1. unfold initialized_events.
  rewrite <- !app_assoc. reflexivity.
Qed.

(** X1. The first [init] that gets an answer from [getSession] stores
    the session of the answer, whether or not the answer also carries an
    error, sets [ready], and notifies the listeners in this order: first
    [sessionStarted] (only when there is a session), then [initialized],
    each round in the order of registration. *)
Theorem init_first_call (this : SupabaseClient) (s : State) (r : AuthResponse) :
  ready s = false →
  auth_getSession this (length (session_fetches (log s))) = Fulfilled r →
  ∃ s',
    init this s = (Normal tt, s') ∧
    ready s' = true ∧
    currentSession s' = data_session r ∧
    listeners s' = listeners s ∧
    log s' = (log s ++ [GetSession]
                    ++ session_events (data_session r) (listeners s)
                    ++ initialized_events (listeners s))%list.
Proof. apply init_fulfilled. Qed.

Lemma init_first_call_witness :
  ∃ s',
    init (client_signed_in false)
         (snd (registerListener session_listener
                 (snd (registerListener view_listener constructor))))
      = (Normal tt, s') ∧
    ready s' = true ∧
    currentSession s' = Some demo_session ∧
    listeners s' = [view_listener; session_listener] ∧
    log s' = [GetSession; NotifySessionStarted 2 demo_session; NotifyInitialized 1].
Proof.
  apply (init_first_call (client_signed_in false)
           (snd (registerListener session_listener
                   (snd (registerListener view_listener constructor))))
           {| data_session := Some demo_session; auth_error := None |}).
  - reflexivity.
  - reflexivity.
Defined.

(** X2. When [getSession] rejects, [init] throws what it was rejected
    with and, the fetch apart, changes nothing: [ready] stays false and
    nobody is notified.  A second [init] therefore fetches the session
    again, and finishes the initialization if that fetch is answered. *)
Theorem init_retry_after_rejection (this : SupabaseClient) (s : State)
    (ex : Thrown) (r : AuthResponse) :
  ready s = false →
  auth_getSession this (length (session_fetches (log s))) = Rejected ex →
  auth_getSession this (S (length (session_fetches (log s)))) = Fulfilled r →
  init this s = (Throw ex, add_events [GetSession] s) ∧
  ∃ s',
    init this (add_events [GetSession] s) = (Normal tt, s') ∧
    ready s' = true ∧
    currentSession s' = data_session r ∧
    log s' = (log s ++ [GetSession; GetSession]
                    ++ session_events (data_session r) (listeners s)
                    ++ initialized_events (listeners s))%list.
Proof.
  intros H Hrej Hget. split.
  - unfold init, bind at 1, get at 1. rewrite H.
    unfold bind at 1. rewrite getSession_run, Hrej. reflexivity.
  - destruct (init_fulfilled this (add_events [GetSession] s) r) as (s' & Hrun & Hr & Hc & Hl & Hlog).
    + exact H.
    + cbn [add_events log]. unfold session_fetches in *. rewrite omap_app, length_app.
      cbn. rewrite Nat.add_1_r. exact Hget.
    + exists s'. split; [exact Hrun|]. split; [exact Hr|]. split; [exact Hc|].
      rewrite Hlog. cbn [add_events log listeners]. rewrite <- !app_assoc. reflexivity.
Qed.

Lemma init_retry_after_rejection_witness :
  init (client_signed_in true) constructor
    = (Throw (Rejection "network" CodeUndefined), add_events [GetSession] constructor) ∧
  ∃ s',
    init (client_signed_in true) (add_events [GetSession] constructor) = (Normal tt, s') ∧
    ready s' = true ∧
    currentSession s' = Some demo_session ∧
    log s' = (log constructor ++ [GetSession; GetSession]
                ++ session_events (Some demo_session) (listeners constructor)
                ++ initialized_events (listeners constructor))%list.
Proof.
  apply (init_retry_after_rejection (client_signed_in true) constructor
           (Rejection "network" CodeUndefined)
           {| data_session := Some demo_session; auth_error := None |}).
  - reflexivity.
  - reflexivity.
  - reflexivity.
Defined.

(** X3. Whenever [login] throws, the call to [signInWithPassword] is all
    that has happened: the session, [ready] and the listeners are as
    before and nobody is notified.  What it throws is the rejection of
    the call, or the [error] of the answer itself, with its code, even
    when the answer also carries a session. *)
Theorem login_throws (this : SupabaseClient) (username password : string)
    (s s' : State) (ex : Thrown) :
  login this username password s = (Throw ex, s') →
  s' = add_events [SignInWithPassword username password] s ∧
  (auth_signInWithPassword this (length (sign_ins (log s))) username password
     = Rejected ex ∨
   ∃ r e,
     auth_signInWithPassword this (length (sign_ins (log s))) username password
       = Fulfilled r ∧
     auth_error r = Some e ∧
     ex = Rejection (auth_message e) (auth_code e)).
Proof.
  unfold login, bind at 1. rewrite signInWithPassword_run.
  destruct (auth_signInWithPassword this _ username password) as [r|ex0].
  - destruct (auth_error r) as [e|] eqn:He.
    + intros [= <- <-]. split; [reflexivity|]. right. eauto.
    + destruct (updateSession_exact (data_session r)
                  (add_events [SignInWithPassword username password] s))
        as (s1 & Hrun & _).
      rewrite Hrun. discriminate.
  - intros [= <- <-]. split; [reflexivity|]. left. reflexivity.
Qed.

Lemma login_throws_witness :
  snd (login client_refusing_login "a@b.c" "secret" constructor)
    = add_events [SignInWithPassword "a@b.c" "secret"] constructor.
Proof.
  apply (login_throws client_refusing_login "a@b.c" "secret" constructor _
           (Rejection "Invalid login credentials"
                      (CodeString (js "invalid_credentials")))).
  reflexivity.
Defined.

(** X4. A [login] whose answer has no error stores the session of the
    answer, which may be null, and notifies the listeners that define
    [sessionStarted], in the order of registration and only when there is
    a session.  It does not touch [ready], so it never stands in for
    [init]. *)
Theorem login_succeeds (this : SupabaseClient) (username password : string)
    (s : State) (r : AuthResponse) :
  auth_signInWithPassword this (length (sign_ins (log s))) username password
    = Fulfilled r →
  auth_error r = None →
  ∃ s',
    login this username password s = (Normal tt, s') ∧
    currentSession s' = data_session r ∧
    ready s' = ready s ∧
    listeners s' = listeners s ∧
    log s' = (log s ++ [SignInWithPassword username password]
                    ++ session_events (data_session r) (listeners s))%list.
Proof.
  intros Hsign He. unfold login, bind at 1.
  rewrite signInWithPassword_run, Hsign, He.
  destruct (updateSession_exact (data_session r)
              (add_events [SignInWithPassword username password] s))
    as (s' & Hrun & Hlog & Hr & Hl & Hc).
  exists s'. split; [exact Hrun|]. cbn in Hlog, Hr, Hl.
  split; [exact Hc|]. split; [exact Hr|]. split; [exact Hl|].
  rewrite Hlog, <- app_assoc. reflexivity.
Qed.

Lemma login_succeeds_witness :
  ∃ s',
    login (client_signed_in false) "a@b.c" "secret"
          (snd (registerListener session_listener constructor))
      = (Normal tt, s') ∧
    currentSession s' = Some demo_session ∧
    ready s' = false ∧
    listeners s' = [session_listener] ∧
    log s' = [SignInWithPassword "a@b.c" "secret"; NotifySessionStarted 2 demo_session].
Proof.
  apply (login_succeeds (client_signed_in false) "a@b.c" "secret"
           (snd (registerListener session_listener constructor))
           {| data_session := Some demo_session; auth_error := None |}).
  - reflexivity.
  - reflexivity.
Defined.

Lemma initialized_notifications_session_events (session : option Session)
    (ls : list Listener) :
  initialized_notifications (session_events session ls) = [].
Proof.
  destruct session as [x|]; [|reflexivity]. cbn [session_events].
  induction (List.filter sessionStarted ls) as [|cb l IH]; [reflexivity | exact IH].
Qed.

Lemma initialized_notifications_initialized_events (ls : list Listener) :
  initialized_notifications (initialized_events ls)
  = handle <$> List.filter initialized ls.
Proof.
  unfold initialized_events.
  induction (List.filter initialized ls) as [|cb l IH]; [reflexivity|].
  cbn. f_equal. exact IH.
Qed.

(** X5. A listener that defines [initialized] and is registered, under a
    handle not yet in use, before the first [init] that gets its answer,
    is notified by that [init] exactly once, after the listeners that
    were registered before it. *)
Theorem listener_registered_before_init (this : SupabaseClient) (s : State)
    (l : Listener) (r : AuthResponse) :
  ready s = false →
  handle l ∉ handle <$> listeners s →
  initialized l = true →
  auth_getSession this (length (session_fetches (log s))) = Fulfilled r →
  ∃ s',
    init this (snd (registerListener l s)) = (Normal tt, s') ∧
    initialized_notifications (log s')
      = (initialized_notifications (log s)
         ++ (handle <$> List.filter initialized (listeners s))
         ++ [handle l])%list ∧
    handle l ∉ handle <$> List.filter initialized (listeners s).
Proof.
  intros H Hfresh Hinit Hget.
  assert (Hreg : snd (registerListener l s) = set_listeners (listeners s ++ [l]) s).
  { unfold registerListener, modify. cbn [snd]. rewrite bool_decide_eq_false_2; auto. }
  rewrite Hreg.
  destruct (init_fulfilled this (set_listeners (listeners s ++ [l]) s) r H Hget)
    as (s' & Hrun & _ & _ & _ & Hlog).
  exists s'. split; [exact Hrun|]. split.
  - rewrite Hlog. cbn [set_listeners log listeners].
    rewrite !initialized_notifications_app, initialized_notifications_session_events,
      initialized_notifications_initialized_events.
    rewrite List.filter_app. cbn [List.filter]. rewrite Hinit, fmap_app.
    reflexivity.
  - intros Hin. apply Hfresh. apply list_elem_of_fmap in Hin as (cb & -> & Hcb).
    apply list_elem_of_fmap. exists cb. split; [reflexivity|].
    apply list_elem_of_In in Hcb. apply List.filter_In in Hcb as [Hcb _].
    apply list_elem_of_In. exact Hcb.
Qed.

Lemma listener_registered_before_init_witness :
  ∃ s',
    init (client_signed_in false)
         (snd (registerListener view_listener
                 (snd (registerListener session_listener constructor))))
      = (Normal tt, s') ∧
    initialized_notifications (log s') = [handle view_listener] ∧
    handle view_listener ∉ handle <$> List.filter initialized [session_listener].
Proof.
  apply (listener_registered_before_init (client_signed_in false)
           (snd (registerListener session_listener constructor))
           view_listener
           {| data_session := Some demo_session; auth_error := None |}).
  - reflexivity.
  - cbn. intros Hin. apply list_elem_of_singleton in Hin. discriminate.
  - reflexivity.
  - reflexivity.
Defined.

(* ===================================================================== *)
(** ** More on [uploadData] *)
(* ===================================================================== *)

(** X6. The set of fatal codes, spelled out: a code is fatal exactly
    when it has five characters of which the first two are 22 or 23 and
    the other three are no line terminators, or when it is 42501.  Longer
    or shorter codes, also with white space around them, are not. *)
Theorem fatal_code_exactly (code : JsString) :
  fatal_code code = true ↔
  in_class 50 50 code ∨ in_class 50 51 code ∨ code = js "42501".
Proof. apply fatal_code_spec. Qed.

(** X7. When the client throws at entry [k] a value whose [code] is a
    string that one of the patterns matches, [uploadData] discards the
    rest of the transaction: the entries after [k] are never sent, the
    transaction is completed once and the call returns. *)
Theorem uploadData_discards_on_fatal_rejection (this : SupabaseClient)
    (database : AbstractPowerSyncDatabase) (t : CrudTransaction) (s : State)
    (k : nat) (m : string) (c : JsString) :
  nextCrudTransaction database = Some t →
  (∀ i, i < k → receives this s (crud t) i (Fulfilled ok_response)) →
  receives this s (crud t) k (Rejected (Rejection m (CodeString c))) →
  fatal_code c = true →
  ∃ s' evs,
    uploadData this database s = (Normal tt, s') ∧
    log s' = (log s ++ evs)%list ∧
    Some <$> requests evs = request_of <$> take (S k) (crud t) ∧
    completions evs = [t].
Proof. apply uploadData_rejection_fatal. Qed.

Lemma uploadData_discards_on_fatal_rejection_witness :
  ∃ s' evs,
    uploadData (client_with 1 (Rejected (Rejection "denied" (CodeString (js "42501")))))
               (pending batch3) constructor = (Normal tt, s') ∧
    log s' = (log constructor ++ evs)%list ∧
    Some <$> requests evs = request_of <$> take 2 (crud batch3) ∧
    completions evs = [batch3].
Proof.
  apply (uploadData_discards_on_fatal_rejection
           (client_with 1 (Rejected (Rejection "denied" (CodeString (js "42501")))))
           (pending batch3) batch3 constructor 1 "denied" (js "42501")).
  - reflexivity.
  - intros i Hi. destruct i as [|i]; [|lia].
    eexists _, _; (split; [reflexivity|]); (split; reflexivity).
  - eexists _, _; (split; [reflexivity|]); (split; reflexivity).
  - reflexivity.
Defined.

(** X8. When the client throws at entry [k] a value that the catch block
    does not discard on -- no [code], a [code] that is no string, or a
    string that no pattern matches -- [uploadData] throws that very value
    again, after the requests of the entries up to [k] and without
    completing the transaction.  If the value is null or undefined, reading
    its [code] throws a TypeError instead. *)
Theorem uploadData_rejection_rethrown (this : SupabaseClient)
    (database : AbstractPowerSyncDatabase) (t : CrudTransaction) (s : State)
    (k : nat) (ex : Thrown) :
  nextCrudTransaction database = Some t →
  (∀ i, i < k → receives this s (crud t) i (Fulfilled ok_response)) →
  receives this s (crud t) k (Rejected ex) →
  discards ex = false →
  ∃ s' evs,
    uploadData this database s = (Throw (rethrown ex), s') ∧
    log s' = (log s ++ evs)%list ∧
    Some <$> requests evs = request_of <$> take (S k) (crud t) ∧
    completions evs = [].
Proof.
  intros Hdb Hall (op & q & Hk & Hq & Hr) Hd.
  destruct (uploadData_throws_at this database t s k op Hdb Hk Hall)
    as (s1 & qs & Hext & Hqs & Hlen & Hthrow).
  pose proof (upload_op_run this op s1) as Hop. cbn zeta in Hop.
  rewrite Hq, Hlen, Hr in Hop.
  rewrite (Hthrow _ _ Hop), upload_catch_run. cbn zeta.
  exists (add_events [ConsoleDebug ex] (add_events [Sent q] (set_lastOp (Some op) s1))),
    ((GetNextCrudTransaction :: (Sent <$> qs)) ++ [Sent q; ConsoleDebug ex])%list.
  split; [|split; [|split]].
  - destruct ex; try reflexivity; rewrite Hd; reflexivity.
  - destruct Hext as (Hlog & _). cbn [add_events set_lastOp log].
    rewrite Hlog, <- !app_assoc. reflexivity.
  - rewrite requests_app.
    change (requests (GetNextCrudTransaction :: (Sent <$> qs)))
      with (requests (Sent <$> qs)).
    rewrite requests_Sent.
    rewrite (take_S_r _ _ _ Hk), !fmap_app, Hqs. cbn. rewrite Hq. reflexivity.
  - rewrite completions_app.
    change (completions (GetNextCrudTransaction :: (Sent <$> qs)))
      with (completions (Sent <$> qs)).
    rewrite completions_Sent. reflexivity.
Qed.

Lemma uploadData_rejection_rethrown_witness :
  ∃ s' evs,
    uploadData (client_with 0 (Rejected (Rejection "fetch failed" CodeUndefined)))
               (pending batch3) constructor
      = (Throw (Rejection "fetch failed" CodeUndefined), s') ∧
    log s' = (log constructor ++ evs)%list ∧
    Some <$> requests evs = request_of <$> take 1 (crud batch3) ∧
    completions evs = [].
Proof.
  apply (uploadData_rejection_rethrown
           (client_with 0 (Rejected (Rejection "fetch failed" CodeUndefined)))
           (pending batch3) batch3 constructor 0
           (Rejection "fetch failed" CodeUndefined)).
  - reflexivity.
  - intros i Hi. lia.
  - eexists _, _; (split; [reflexivity|]); (split; reflexivity).
  - reflexivity.
Defined.

(** An invocation whose entries all succeed. *)
Lemma uploadData_succeeds (this : SupabaseClient)
    (database : AbstractPowerSyncDatabase) (t : CrudTransaction) (s : State) :
  nextCrudTransaction database = Some t →
  (∀ i, i < length (crud t) → receives this s (crud t) i (Fulfilled ok_response)) →
  ∃ s' qs,
    uploadData this database s = (Normal tt, s') ∧
    log s' = (log s ++ GetNextCrudTransaction :: (Sent <$> qs) ++ [Complete t])%list ∧
    Some <$> qs = request_of <$> crud t.
Proof.
  intros Hdb Hall. rewrite (uploadData_pending this database t s Hdb).
  set (s0 := set_lastOp None (add_events [GetNextCrudTransaction] s)).
  destruct (for_of_upload_ok this (crud t) s0) as (s1 & qs & Hrun & Hext & Hqs).
  { intros i Hi. apply receives_entered, Hall, Hi. }
  exists (add_events [Complete t] s1), qs.
  unfold try_catch, bind. rewrite Hrun. split; [reflexivity|]. split; [|exact Hqs].
  destruct Hext as (Hlog & _). cbn [add_events log]. rewrite Hlog.
  subst s0. cbn [set_lastOp add_events log]. rewrite <- !app_assoc. reflexivity.
Qed.

(** X9. [uploadData] keeps nothing of an invocation that failed.  After
    an invocation that stopped at a fault of entry [k], the next one
    starts with the first entry again: if all its requests succeed, the
    entries up to [k] have been sent twice over the two invocations, and
    the transaction is completed once. *)
Theorem uploadData_retry_resends (this : SupabaseClient)
    (database : AbstractPowerSyncDatabase) (t : CrudTransaction) (s : State)
    (k : nat) (f : Fault) :
  nextCrudTransaction database = Some t →
  (∀ i, i < k → receives this s (crud t) i (Fulfilled ok_response)) →
  receives this s (crud t) k (Fulfilled (fault_response f)) →
  (∀ i op, crud t !! i = Some op →
     ∃ q, request_of op = Some q ∧
          postgrest this (length (requests (log s)) + S k + i) q
            = Fulfilled ok_response) →
  ∃ s1 s2 qs1 qs2,
    uploadData this database s = (Throw (upload_error f), s1) ∧
    uploadData this database s1 = (Normal tt, s2) ∧
    requests (log s2) = (requests (log s) ++ qs1 ++ qs2)%list ∧
    Some <$> qs1 = request_of <$> take (S k) (crud t) ∧
    Some <$> qs2 = request_of <$> crud t ∧
    completions (log s2) = (completions (log s) ++ [t])%list.
Proof.
  intros Hdb Hall Hk Hnext.
  destruct (uploadData_fault this database t s k f Hdb Hall Hk)
    as (s1 & evs1 & Hrun1 & (Hlog1 & _) & Hreq1 & Hc1).
  assert (Hlen1 : length (requests evs1) = S k).
  { apply (f_equal length) in Hreq1. rewrite !length_fmap, length_take in Hreq1.
    destruct Hk as (op & q & Hop & _). apply lookup_lt_Some in Hop. lia. }
  destruct (uploadData_succeeds this database t s1 Hdb) as (s2 & qs2 & Hrun2 & Hlog2 & Hreq2).
  { intros i Hi. destruct (lookup_lt_is_Some_2 (crud t) i Hi) as (op & Hop).
    destruct (Hnext i op Hop) as (q & Hq & Hr).
    exists op, q. split; [exact Hop|]. split; [exact Hq|].
    rewrite Hlog1, requests_app, length_app, Hlen1. exact Hr. }
  exists s1, s2, (requests evs1), qs2.
  split; [exact Hrun1|]. split; [exact Hrun2|].
  split; [|split; [exact Hreq1|split; [exact Hreq2|]]].
  - rewrite Hlog2, Hlog1, !requests_app.
    change (requests (GetNextCrudTransaction :: (Sent <$> qs2) ++ [Complete t]))
      with (requests ((Sent <$> qs2) ++ [Complete t])).
    rewrite requests_app, requests_Sent. cbn. rewrite app_nil_r, app_assoc. reflexivity.
  - rewrite Hlog2, Hlog1, !completions_app, Hc1.
    change (completions (GetNextCrudTransaction :: (Sent <$> qs2) ++ [Complete t]))
      with (completions ((Sent <$> qs2) ++ [Complete t])).
    rewrite completions_app, completions_Sent. cbn. rewrite app_nil_r. reflexivity.
Qed.

Lemma uploadData_retry_resends_witness :
  ∃ s1 s2 qs1 qs2,
    uploadData (client_with 1 (Fulfilled (fault_response connection_failure)))
               (pending batch3) constructor
      = (Throw (upload_error connection_failure), s1) ∧
    uploadData (client_with 1 (Fulfilled (fault_response connection_failure)))
               (pending batch3) s1 = (Normal tt, s2) ∧
    requests (log s2) = (requests (log constructor) ++ qs1 ++ qs2)%list ∧
    Some <$> qs1 = request_of <$> take 2 (crud batch3) ∧
    Some <$> qs2 = request_of <$> crud batch3 ∧
    completions (log s2) = (completions (log constructor) ++ [batch3])%list.
Proof.
  apply (uploadData_retry_resends
           (client_with 1 (Fulfilled (fault_response connection_failure)))
           (pending batch3) batch3 constructor 1 connection_failure).
  - reflexivity.
  - intros i Hi. destruct i as [|i]; [|lia].
    eexists _, _; (split; [reflexivity|]); (split; reflexivity).
  - eexists _, _; (split; [reflexivity|]); (split; reflexivity).
  - intros i op Hop. destruct i as [|[|[|i]]]; cbn in Hop; [| | |discriminate];
      injection Hop as <-; eexists; (split; reflexivity).
Defined.

(** The loop adds events of the upload only, and at most one request for
    each entry. *)
Lemma for_of_upload_events (this : SupabaseClient) (ops : list CrudEntry) (s : State) :
  ∃ out s' evs,
    for_of ops (upload_op this) s = (out, s') ∧
    extends s s' evs ∧
    forallb is_upload_event evs = true ∧
    (length (requests evs) ≤ length ops)%nat.
Proof.
  revert s. induction ops as [|op ops IH]; intros s.
  - exists (Normal tt), s, []. split; [reflexivity|].
    split; [apply extends_refl|]. split; [reflexivity | cbn; lia].
  - cbn [for_of]. unfold bind. rewrite upload_op_run. cbn zeta.
    destruct (request_of op) as [q|].
    + destruct (postgrest this (length (requests (log s))) q) as [r|ex].
      * destruct (error r) as [f|].
        -- eexists _, _, [Sent q; ConsoleErrorFault f]. split; [reflexivity|].
           split; [apply (extends_op2 s _ [Sent q] [ConsoleErrorFault f])|].
           split; [reflexivity | cbn; lia].
        -- destruct (IH (add_events [Sent q] (set_lastOp (Some op) s)))
             as (out & s' & evs & Hrun & Hext & Hev & Hlen).
           exists out, s', ([Sent q] ++ evs)%list. split; [exact Hrun|].
           split; [eapply extends_trans; [apply extends_op1 | exact Hext]|].
           split; [exact Hev|]. rewrite requests_app, length_app. cbn. lia.
      * eexists _, _, [Sent q]. split; [reflexivity|].
        split; [apply extends_op1|]. split; [reflexivity | cbn; lia].
    + eexists _, _, []. split; [reflexivity|].
      split; [apply extends_set_lastOp|]. split; [reflexivity | cbn; lia].
Qed.

(** X10. Whatever the backend does, [uploadData] only talks to the local
    database, the backend tables and the console: it makes no call to the
    auth client and notifies no listener, it leaves [ready],
    [currentSession] and the listeners as they are, and it sends at most
    one request for each entry of the pending transaction (none when
    nothing is pending). *)
Theorem uploadData_only_uploads (this : SupabaseClient)
    (database : AbstractPowerSyncDatabase) (s : State) :
  ∃ out s' evs,
    uploadData this database s = (out, s') ∧
    log s' = (log s ++ evs)%list ∧
    forallb is_upload_event evs = true ∧
    ready s' = ready s ∧
    currentSession s' = currentSession s ∧
    listeners s' = listeners s ∧
    (length (requests evs)
       ≤ length (from_option crud [] (nextCrudTransaction database)))%nat.
Proof.
  destruct (nextCrudTransaction database) as [t|] eqn:Hdb.
  - rewrite (uploadData_pending this database t s Hdb).
    set (s0 := set_lastOp None (add_events [GetNextCrudTransaction] s)).
    assert (H0 : extends s s0 [GetNextCrudTransaction]) by (unfold extends; cbn; auto).
    destruct (for_of_upload_events this (crud t) s0)
      as (out & s1 & evs & Hrun & Hext & Hev & Hlen).
    pose proof (extends_trans _ _ _ _ _ H0 Hext) as H1.
    assert (Hfin : ∀ (out' : Completion unit) (s' : State) more,
      extends s1 s' more → forallb is_upload_event more = true → requests more = [] →
      ∃ out s'' evs',
        (out', s') = (out, s'') ∧ log s'' = (log s ++ evs')%list ∧
        forallb is_upload_event evs' = true ∧
        ready s'' = ready s ∧ currentSession s'' = currentSession s ∧
        listeners s'' = listeners s ∧
        (length (requests evs') ≤ length (crud t))%nat).
    { intros out' s' more Hmore Hev' Hreq'.
      destruct (extends_trans _ _ _ _ _ H1 Hmore) as (Hlog & Hr & Hc & Hl).
      exists out', s', (([GetNextCrudTransaction] ++ evs) ++ more)%list.
      split; [reflexivity|]. split; [exact Hlog|]. split.
      { rewrite !forallb_app, Hev, Hev'. reflexivity. }
      split; [exact Hr|]. split; [exact Hc|]. split; [exact Hl|].
      rewrite !requests_app, Hreq', !length_app. cbn. lia. }
    unfold try_catch, bind. rewrite Hrun. destruct out as [[]|ex].
    + apply (Hfin _ _ [Complete t]); [apply extends_add_events | reflexivity ..].
    + rewrite upload_catch_run. cbn zeta.
      assert (Hrethrow : ∀ ex' : Thrown,
        ∃ out s'' evs',
          (@Throw unit ex', add_events [ConsoleDebug ex] s1) = (out, s'') ∧
          log s'' = (log s ++ evs')%list ∧
          forallb is_upload_event evs' = true ∧
          ready s'' = ready s ∧ currentSession s'' = currentSession s ∧
          listeners s'' = listeners s ∧
          (length (requests evs') ≤ length (crud t))%nat).
      { intros ex'. apply (Hfin (@Throw unit ex') _ [ConsoleDebug ex]);
          [apply extends_add_events | reflexivity ..]. }
      destruct ex as [m|p|m c|]; try apply Hrethrow.
      destruct (discards (Rejection m c)); [|apply Hrethrow].
      apply (Hfin _ _ [ConsoleDebug (Rejection m c);
                       ConsoleErrorDiscard (lastOp s1) (Rejection m c);
                       Complete t]); [|reflexivity ..].
      unfold extends. cbn. rewrite <- !app_assoc. auto.
  - rewrite (uploadData_none this database s Hdb).
    exists (Normal tt), (add_events [GetNextCrudTransaction] s), [GetNextCrudTransaction].
    cbn. repeat split; auto.
Qed.

(* ===================================================================== *)
(** ** [fetchCredentials] *)
(* ===================================================================== *)

(** X11. [fetchCredentials] throws exactly when the fetch of the session
    is rejected, or its answer has no session, or its answer has an
    error; in the last two cases it throws a new [Error], which has no
    code.  Whether it throws or returns, the fetch is all it does to the
    connector: in particular it does not store the session it got. *)
Theorem fetchCredentials_throws (this : SupabaseClient) (config : SupabaseConfig)
    (show : option AuthError → string) (s : State) :
  ∃ out lines,
    fetchCredentials this config show s = (out, add_events [GetSession] s, lines) ∧
    match auth_getSession this (length (session_fetches (log s))) with
    | Rejected ex => out = Throw ex
    | Fulfilled r =>
        match data_session r, auth_error r with
        | Some _, None => ∃ c, out = Normal c
        | _, _ => ∃ m, out = Throw (NewError m) ∧ discards (NewError m) = false
        end
    end.
Proof.
  unfold fetchCredentials. rewrite getSession_run.
  destruct (auth_getSession this _) as [r|ex].
  - destruct (data_session r) as [session|], (auth_error r) as [e|];
      eexists _, _; (split; [reflexivity|]); eauto.
  - eexists _, _. split; reflexivity.
Qed.

(** X12. When the answer has a session and no error, [fetchCredentials]
    returns the PowerSync URL of the configuration as endpoint and the
    access token of the session as token.  The expiry is undefined when
    [expires_at] is missing or is 0; otherwise it is the date
    [expires_at] * 1000, seconds turned into milliseconds, which is a
    valid date when it lies within 8.64e15 ms of the epoch and an invalid
    date beyond. *)
Theorem fetchCredentials_returns (this : SupabaseClient) (config : SupabaseConfig)
    (show : option AuthError → string) (s : State) (session : Session) :
  auth_getSession this (length (session_fetches (log s)))
    = Fulfilled {| data_session := Some session; auth_error := None |} →
  ∃ c,
    fetchCredentials this config show s
      = (Normal c, add_events [GetSession] s, [expires_at session]) ∧
    endpoint c = powersyncUrl config ∧
    token c = access_token session ∧
    (expiresAt c = None ↔
       expires_at session = None ∨ expires_at session = Some 0%Z) ∧
    (∀ ms, expiresAt c = Some (DateAt ms) ↔
           ∃ e, expires_at session = Some e ∧ e ≠ 0%Z ∧ ms = (e * 1000)%Z ∧
                (Z.abs ms ≤ 8640000000000000)%Z) ∧
    (expiresAt c = Some InvalidDate ↔
       ∃ e, expires_at session = Some e ∧
            (8640000000000000 < Z.abs (e * 1000))%Z).
Proof.
  intros Hget. unfold fetchCredentials. rewrite getSession_run, Hget.
  cbn [data_session auth_error].
  eexists. split; [reflexivity|]. cbn [endpoint token expiresAt].
  split; [reflexivity|]. split; [reflexivity|].
  destruct (expires_at session) as [e|].
  - unfold new_Date. destruct (Z.eqb_spec e 0) as [->|Hne].
    + split; [|split].
      * split; auto.
      * intros ms. split; [discriminate|]. intros (e' & [= <-] & Hne & _). congruence.
      * split; [discriminate|]. intros (e' & [= <-] & Hbig). cbn in Hbig. lia.
    + destruct (Z.leb_spec (Z.abs (e * 1000)) 8640000000000000) as [Hle|Hgt].
      * split; [|split].
        -- split; [discriminate|]. intros [|]; congruence.
        -- intros ms. split.
           ++ intros [= <-]. exists e. auto.
           ++ intros (e' & [= <-] & _ & -> & _). reflexivity.
        -- split; [discriminate|]. intros (e' & [= <-] & Hbig). lia.
      * split; [|split].
        -- split; [discriminate|]. intros [|]; congruence.
        -- intros ms. split; [discriminate|].
           intros (e' & [= <-] & _ & -> & Hle). lia.
        -- split; [|reflexivity]. intros _. exists e. auto.
  - split; [|split].
    + split; auto.
    + intros ms. split; [discriminate|]. intros (e' & He & _). discriminate.
    + split; [discriminate|]. intros (e' & He & _). discriminate.
Qed.

Lemma fetchCredentials_returns_witness :
  ∃ c,
    fetchCredentials (client_signed_in false) demo_config show_error constructor
      = (Normal c, add_events [GetSession] constructor, [Some 1700000000%Z]) ∧
    endpoint c = "https://demo.journeyapps.com" ∧
    token c = "jwt" ∧
    (expiresAt c = None ↔
       expires_at demo_session = None ∨ expires_at demo_session = Some 0%Z) ∧
    (∀ ms, expiresAt c = Some (DateAt ms) ↔
           ∃ e, expires_at demo_session = Some e ∧ e ≠ 0%Z ∧ ms = (e * 1000)%Z ∧
                (Z.abs ms ≤ 8640000000000000)%Z) ∧
    (expiresAt c = Some InvalidDate ↔
       ∃ e, expires_at demo_session = Some e ∧
            (8640000000000000 < Z.abs (e * 1000))%Z).
Proof.
  apply (fetchCredentials_returns (client_signed_in false) demo_config show_error
           constructor demo_session).
  reflexivity.
Defined.

(* ===================================================================== *)
(** ** The to-do list view *)
(* ===================================================================== *)

Lemma trimStart_blank (s : JsString) : blank (trimStart s) = blank s.
Proof.
  induction s as [|c s IH]; [reflexivity|]. cbn [trimStart].
  destruct (is_white_space c) eqn:Hc; [|reflexivity].
  rewrite IH. unfold blank. cbn [forallb]. rewrite Hc. reflexivity.
Qed.

Lemma trimStart_nil (s : JsString) : trimStart s = [] ↔ blank s = true.
Proof.
  induction s as [|c s IH]; [split; reflexivity|]. unfold blank in *.
  cbn [trimStart forallb]. destruct (is_white_space c); [exact IH|].
  split; discriminate.
Qed.

Lemma blank_reverse (s : JsString) : blank (reverse s) = blank s.
Proof.
  unfold blank. induction s as [|c s IH]; [reflexivity|].
  rewrite reverse_cons, forallb_app, IH. cbn. rewrite andb_true_r. apply andb_comm.
Qed.

(** [trim] leaves nothing exactly of the texts made of white space. *)
Lemma trim_nil (s : JsString) : trim s = [] ↔ blank s = true.
Proof.
  unfold trim. rewrite <- (trimStart_blank s), <- (blank_reverse (trimStart s)).
  rewrite <- trimStart_nil. split.
  - intros H. apply (f_equal reverse) in H. rewrite reverse_involutive in H. exact H.
  - intros ->. reflexivity.
Qed.

(** [addTodo] with the test on [trim] read as a test on the characters. *)
Lemma addTodo_cases (v : TodoList) :
  addTodo v =
  if blank (newTodo v) then v
  else {| newTodo := [];
          todos := todos v ++
                   [ {| todo_id := Z.of_nat (length (todos v)) + 1;
                        todo_description := newTodo v;
                        todo_completed := 0 |} ] |}.
Proof.
  unfold addTodo. destruct (trim (newTodo v)) as [|c rest] eqn:Ht.
  - apply trim_nil in Ht. rewrite Ht. reflexivity.
  - destruct (blank (newTodo v)) eqn:Hb; [|reflexivity].
    apply trim_nil in Hb. congruence.
Qed.

(** X13. Submitting the form does nothing at all when the input is empty
    or made of white space only: the list stays as it is and the input is
    not cleared.  Otherwise one item is added at the end of the list,
    with the text as typed (not trimmed), not completed, and numbered one
    more than the length of the list; the input is cleared and the other
    items stay as they are. *)
Theorem addTodo_blank_or_appends (v : TodoList) :
  addTodo v =
  if blank (newTodo v) then v
  else {| newTodo := [];
          todos := todos v ++
                   [ {| todo_id := Z.of_nat (length (todos v)) + 1;
                        todo_description := newTodo v;
                        todo_completed := 0 |} ] |}.
Proof. apply addTodo_cases. Qed.

Lemma at_index_Some {A} (l : list A) (index : Z) :
  (0 ≤ index < Z.of_nat (length l))%Z →
  ∃ x, l !! Z.to_nat index = Some x ∧ at_index l index = Some x.
Proof.
  intros H. destruct (lookup_lt_is_Some_2 l (Z.to_nat index)) as (x & Hx); [lia|].
  exists x. split; [exact Hx|]. unfold at_index.
  destruct (Z.leb_spec 0 index); [exact Hx | lia].
Qed.

Lemma at_index_None {A} (l : list A) (index : Z) :
  at_index l index = None ↔ (index < 0 ∨ Z.of_nat (length l) ≤ index)%Z.
Proof.
  unfold at_index. destruct (Z.leb_spec 0 index) as [Hpos|Hneg].
  - rewrite lookup_ge_None. lia.
  - split; [lia | reflexivity].
Qed.

(** X14. Ticking the checkbox of an index that is not in the list --
    negative, or the length and beyond -- throws a TypeError and leaves
    the view as it is; these are the only indices for which [updateTodo]
    throws. *)
Theorem updateTodo_out_of_range (index : Z) (v : TodoList) :
  (index < 0 ∨ Z.of_nat (length (todos v)) ≤ index)%Z ↔
  updateTodo index v = (Throw (TypeError "completed"), v).
Proof.
  rewrite <- at_index_None. unfold updateTodo.
  destruct (at_index (todos v) index); split; try reflexivity; discriminate.
Qed.

(** X15. Ticking the checkbox of an item of the list changes the
    [completed] field of that item and nothing else: the list keeps its
    length, every other item and the input stay as they are, the item
    keeps its id and text, and its [completed] becomes 0 if it was 1 and
    1 if it was anything else. *)
Theorem updateTodo_in_range (index : Z) (v : TodoList) :
  (0 ≤ index < Z.of_nat (length (todos v)))%Z →
  ∃ t t',
    todos v !! Z.to_nat index = Some t ∧
    fst (updateTodo index v) = Normal tt ∧
    newTodo (snd (updateTodo index v)) = newTodo v ∧
    length (todos (snd (updateTodo index v))) = length (todos v) ∧
    todos (snd (updateTodo index v)) !! Z.to_nat index = Some t' ∧
    todo_id t' = todo_id t ∧
    todo_description t' = todo_description t ∧
    todo_completed t' = (if Z.eqb (todo_completed t) 1 then 0 else 1)%Z ∧
    ∀ j, j ≠ Z.to_nat index →
         todos (snd (updateTodo index v)) !! j = todos v !! j.
Proof.
  intros H. destruct (at_index_Some (todos v) index H) as (t & Ht & Hat).
  exists t, (toggled t). unfold updateTodo. rewrite Hat. cbn [fst snd newTodo todos].
  split; [exact Ht|]. split; [reflexivity|]. split; [reflexivity|].
  split; [apply length_insert|]. split.
  - apply list_lookup_insert_eq. lia.
  - split; [reflexivity|]. split; [reflexivity|]. split; [reflexivity|].
    intros j Hj. apply list_lookup_insert_ne. congruence.
Qed.

Lemma updateTodo_in_range_witness :
  ∃ t t',
    todos two_todos !! Z.to_nat 1 = Some t ∧
    fst (updateTodo 1 two_todos) = Normal tt ∧
    newTodo (snd (updateTodo 1 two_todos)) = newTodo two_todos ∧
    length (todos (snd (updateTodo 1 two_todos))) = length (todos two_todos) ∧
    todos (snd (updateTodo 1 two_todos)) !! Z.to_nat 1 = Some t' ∧
    todo_id t' = todo_id t ∧
    todo_description t' = todo_description t ∧
    todo_completed t' = (if Z.eqb (todo_completed t) 1 then 0 else 1)%Z ∧
    ∀ j, j ≠ Z.to_nat 1 →
         todos (snd (updateTodo 1 two_todos)) !! j = todos two_todos !! j.
Proof.
  apply (updateTodo_in_range 1 two_todos). cbn. lia.
Defined.

(** [splice(index, 1)] removes the item the index stands for, if any. *)
Lemma splice_one {A} (index : Z) (l : list A) :
  splice index 1 l =
  delete (Z.to_nat (if Z.ltb index 0
                    then Z.max (Z.of_nat (length l) + index) 0
                    else index)) l.
Proof.
  unfold splice. rewrite delete_take_drop. cbn zeta.
  destruct (Z.ltb_spec index 0) as [Hneg|Hpos].
  - destruct l as [|x l]; [rewrite !take_nil, !drop_nil; reflexivity|].
    set (n := Z.of_nat (length (x :: l))) in *.
    assert (Hn : (0 < n)%Z) by (subst n; cbn [length]; lia).
    replace (Z.to_nat (Z.min (Z.max 1 0) (n - Z.max (n + index) 0))) with 1%nat by lia.
    rewrite Nat.add_1_r. reflexivity.
  - destruct (Z.lt_ge_cases index (Z.of_nat (length l))) as [Hlt|Hge].
    + replace (Z.min index (Z.of_nat (length l))) with index by lia.
      replace (Z.to_nat (Z.min (Z.max 1 0) (Z.of_nat (length l) - index))) with 1%nat by lia.
      rewrite Nat.add_1_r. reflexivity.
    + replace (Z.min index (Z.of_nat (length l))) with (Z.of_nat (length l)) by lia.
      rewrite !take_ge, !drop_ge by lia. reflexivity.
Qed.

(** X16. Pressing a remove button never throws and removes at most one
    item: the item at the index when the index is in the list, nothing
    when the index is the length or more, and, for a negative index, the
    item that far from the end (the first item when the index reaches
    before the start).  The other items keep their order and the input
    stays as it is. *)
Theorem removeTodo_removes_one (index : Z) (v : TodoList) :
  removeTodo index v =
  {| newTodo := newTodo v;
     todos := delete (Z.to_nat (if Z.ltb index 0
                                then Z.max (Z.of_nat (length (todos v)) + index) 0
                                else index))
                     (todos v) |}.
Proof. unfold removeTodo. rewrite splice_one. reflexivity. Qed.

Lemma acts_ind (P : TodoList → Prop) (l : list Action) (v : TodoList) :
  (∀ a v, P v → P (act a v)) → P v → P (acts l v).
Proof.
  intros Hstep. revert v. unfold acts.
  induction l as [|a l IH]; intros v Hv; [exact Hv|].
  cbn [foldl]. apply IH, Hstep, Hv.
Qed.

Lemma toggled_bit (t : Todo) :
  todo_completed (toggled t) = 0%Z ∨ todo_completed (toggled t) = 1%Z.
Proof. cbn. destruct (Z.eqb (todo_completed t) 1); auto. Qed.

Lemma toggled_toggled (t : Todo) :
  todo_completed t = 0%Z ∨ todo_completed t = 1%Z → toggled (toggled t) = t.
Proof. destruct t as [i d c]. cbn. intros [-> | ->]; reflexivity. Qed.

(** Whatever the user does, [completed] is 0 or 1 in every item. *)
Lemma acts_completed_bit (l : list Action) :
  Forall (fun t => todo_completed t = 0%Z ∨ todo_completed t = 1%Z)
         (todos (acts l mounted)).
Proof.
  apply (acts_ind (fun v => Forall (fun t => todo_completed t = 0%Z ∨ todo_completed t = 1%Z)
                                   (todos v))); [|constructor].
  intros a v Hv. destruct a as [text| |index|index]; cbn [act].
  - exact Hv.
  - rewrite addTodo_cases. destruct (blank (newTodo v)); [exact Hv|].
    cbn [todos]. apply Forall_app. split; [exact Hv|]. repeat constructor.
  - unfold updateTodo. destruct (at_index (todos v) index) as [t|]; [|exact Hv].
    cbn [snd todos]. apply Forall_insert; [exact Hv | apply toggled_bit].
  - unfold removeTodo. cbn [todos]. rewrite splice_one. apply Forall_delete, Hv.
Qed.

(** X17. In a view reached from the mounted one by any typing,
    submitting, ticking and removing, every item has [completed] 0 or 1,
    and ticking the checkbox of an item twice gives back the very view. *)
Theorem updateTodo_twice (l : list Action) (index : Z) :
  (0 ≤ index < Z.of_nat (length (todos (acts l mounted))))%Z →
  Forall (fun t => todo_completed t = 0%Z ∨ todo_completed t = 1%Z)
         (todos (acts l mounted)) ∧
  updateTodo index (snd (updateTodo index (acts l mounted)))
    = (Normal tt, acts l mounted).
Proof.
  intros H. pose proof (acts_completed_bit l) as Hbit. split; [exact Hbit|].
  set (v := acts l mounted) in *.
  destruct (at_index_Some (todos v) index H) as (t & Ht & Hat).
  unfold updateTodo at 2. rewrite Hat. cbn [snd].
  unfold updateTodo, at_index. cbn [todos newTodo].
  destruct (Z.leb_spec 0 index) as [_|]; [|lia].
  rewrite list_lookup_insert_eq by lia.
  rewrite list_insert_insert_eq, toggled_toggled.
  - rewrite (list_insert_id _ _ _ Ht). destruct v; reflexivity.
  - rewrite Forall_lookup in Hbit. exact (Hbit _ _ Ht).
Qed.

Lemma updateTodo_twice_witness :
  updateTodo 0 (snd (updateTodo 0 (acts [Type_ (js "milk"); Submit] mounted)))
    = (Normal tt, acts [Type_ (js "milk"); Submit] mounted).
Proof.
  apply (updateTodo_twice [Type_ (js "milk"); Submit] 0).
  split; [lia | vm_compute; reflexivity].
Defined.

(** Without removals the item at position [i] has the id [i + 1]. *)
Lemma acts_ids_from (l : list Action) (v : TodoList) :
  no_removal l = true →
  (∀ i t, todos v !! i = Some t → todo_id t = (Z.of_nat i + 1)%Z) →
  ∀ i t, todos (acts l v) !! i = Some t → todo_id t = (Z.of_nat i + 1)%Z.
Proof.
  unfold acts. revert v. induction l as [|a l IH]; intros v Hl Hv; [exact Hv|].
  cbn [no_removal forallb] in Hl. apply andb_prop in Hl as [Ha Hl].
  cbn [foldl]. apply (IH (act a v) Hl).
  destruct a as [text| |index|index]; cbn [act]; [exact Hv| | |discriminate].
  - rewrite addTodo_cases. destruct (blank (newTodo v)); [exact Hv|].
    cbn [todos]. intros i t Hi. apply lookup_app_Some in Hi as [Hi|[Hge Hi]].
    + exact (Hv i t Hi).
    + destruct (i - length (todos v))%nat as [|j] eqn:Hj; [|discriminate].
      injection Hi as <-. cbn. lia.
  - unfold updateTodo. destruct (at_index (todos v) index) as [t0|] eqn:Hat; [|exact Hv].
    cbn [snd todos]. intros i t Hi.
    apply list_lookup_insert_Some in Hi as [(Heq & <- & Hlt)|[Hne Hi]].
    + subst i. cbn. unfold at_index in Hat. destruct (Z.leb 0 index); [|discriminate].
      exact (Hv _ _ Hat).
    + exact (Hv i t Hi).
Qed.

Lemma acts_ids (l : list Action) :
  no_removal l = true →
  ∀ i t, todos (acts l mounted) !! i = Some t → todo_id t = (Z.of_nat i + 1)%Z.
Proof. intros Hl. apply (acts_ids_from l mounted Hl). intros i t. discriminate. Qed.

(** X18. The id of an item is its position plus one as long as nothing
    is removed, so the ids are then distinct.  After that, removing any
    item but the last and adding a new one gives the new item the id of
    the item before it: ids are not unique once an item was removed. *)
Theorem addTodo_reuses_id (l : list Action) (index : Z) (text : JsString) :
  no_removal l = true →
  (0 ≤ index < Z.of_nat (length (todos (acts l mounted))) - 1)%Z →
  blank text = false →
  (∀ i t, todos (acts l mounted) !! i = Some t → todo_id t = (Z.of_nat i + 1)%Z) ∧
  ∃ rest a b,
    todos (acts (l ++ [Remove index; Type_ text; Submit]) mounted) = (rest ++ [a; b])%list ∧
    todo_id a = todo_id b.
Proof.
  intros Hl Hi Hb. pose proof (acts_ids l Hl) as Hids. split; [exact Hids|].
  unfold acts in *. rewrite foldl_app. set (v := foldl _ mounted l) in *.
  cbn [foldl act]. rewrite addTodo_cases. cbn [newTodo]. rewrite Hb.
  cbn [todos removeTodo]. rewrite splice_one.
  destruct (Z.ltb_spec index 0) as [|_]; [lia|].
  set (n := length (todos v)) in *.
  destruct (lookup_lt_is_Some_2 (todos v) (n - 1)) as (a & Ha); [lia|].
  assert (Hlast : delete (Z.to_nat index) (todos v) !! (n - 2)%nat = Some a).
  { rewrite list_lookup_delete_ge by lia. rewrite <- Ha. f_equal. lia. }
  assert (Hlen : length (delete (Z.to_nat index) (todos v)) = (n - 1)%nat).
  { rewrite length_delete; [reflexivity|]. apply lookup_lt_is_Some_2. lia. }
  destruct (delete (Z.to_nat index) (todos v)) as [|x d] eqn:Hd using rev_ind;
    [cbn in Hlen; lia|].
  clear IHd. rewrite length_app in Hlen. cbn in Hlen.
  rewrite lookup_app_r in Hlast by lia.
  replace (n - 2 - length d)%nat with 0%nat in Hlast by lia.
  injection Hlast as ->.
  exists d, a, {| todo_id := Z.of_nat (length (d ++ [a])) + 1;
                 todo_description := text; todo_completed := 0 |}.
  split; [rewrite <- app_assoc; reflexivity|].
  cbn [todo_id]. rewrite (Hids _ _ Ha), length_app. cbn. lia.
Qed.

Lemma addTodo_reuses_id_witness :
  ∃ rest a b,
    todos (acts ([Type_ (js "milk"); Submit; Type_ (js "bread"); Submit]
                 ++ [Remove 0; Type_ (js "eggs"); Submit]) mounted)
      = (rest ++ [a; b])%list ∧
    todo_id a = todo_id b.
Proof.
  apply (addTodo_reuses_id [Type_ (js "milk"); Submit; Type_ (js "bread"); Submit]
           0 (js "eggs")).
  - reflexivity.
  - split; [lia | vm_compute; reflexivity].
  - reflexivity.
Defined.
